(** * bingocpp: the AGraph individual ([src/agraph/agraph.cpp])

    A shallow embedding of [bingo::AGraph], the class that owns one raw
    command array, its cached simplified form and constants, and the lazy
    update protocol between them.

    Conventions of the embedding:
    - a C++ [int] is a [Z]; where the class computes an [int] (the constant
      counter, a row count or a coefficient count returned as [int]) the
      32-bit wrap-around is written out;
    - a [double] is a primitive binary64 float;
    - an [Eigen::ArrayX3i] is the list of its rows, an [Eigen::ArrayXXd] is
      its number of rows with the list of its columns;
    - a method is a computation over the object's fields that either returns
      or throws, and that records every call it makes into the three backends
      ([simplification_backend], [evaluation_backend], [string_generation]),
      whose code is not part of this translation unit. *)

From Stdlib Require Import String ZArith List Bool Lia.
From Stdlib Require Import Floats.PrimFloat.
Import ListNotations.

Local Open Scope Z_scope.

(** ** Machine integers *)

Definition INT_MAX : Z := 2147483647.

(** Reduction of an integer into the range of a 32-bit [int]. *)
Definition wrap32 (z : Z) : Z := (z + 2147483648) mod 4294967296 - 2147483648.

(** [n++] on an [int]. *)
Definition int_incr (n : Z) : Z := wrap32 (n + 1).

(** ** Doubles *)

(** [const double kFitnessNotSet = 1e9;] *)
Definition kFitnessNotSet : float := 1e9%float.

(** [constexpr double kNaN = std::numeric_limits<double>::quiet_NaN();] *)
Definition kNaN : float := nan.

(** The C++ comparison [a == b] on doubles. *)
Definition double_eq (a b : float) : bool := PrimFloat.eqb a b.

(** ** Eigen arrays *)

(** One row of an [Eigen::ArrayX3i]: columns [kOpIdx], [kFirstArgumentIndex]
    and [kSecondArgumentIndex]. *)
Definition Row : Type := (Z * Z * Z)%type.

Definition kOpIdx : nat := 0.
Definition kFirstArgumentIndex : nat := 1.
Definition kSecondArgumentIndex : nat := 2.
Definition kInitialCommandRows : nat := 0.
Definition kInitialCommandCols : nat := 3.
Definition kInitialConstantsCol : nat := 1.

(** Coefficient [j] of a row. *)
Definition row_coeff (r : Row) (j : nat) : Z :=
  let '(a, b, c) := r in
  match j with
  | O => a
  | S O => b
  | _ => c
  end.

Definition ArrayX3i : Type := list Row.

(** [Eigen::ArrayXXd], stored column by column as Eigen does: the number of
    rows and the list of the columns, each the list of its coefficients. *)
Record ArrayXXd : Type := mkArrayXXd {
  rows : nat;
  columns : list (list float)
}.

Definition cols (a : ArrayXXd) : nat := List.length (columns a).

(** [a(i, j)] *)
Definition coeff (a : ArrayXXd) (i j : nat) : float :=
  nth i (nth j (columns a) []) kNaN.

(** [Eigen::ArrayXXd::Constant(r, c, v)] *)
Definition Constant (r c : nat) (v : float) : ArrayXXd :=
  mkArrayXXd r (repeat (repeat v r) c).

(** [a.conservativeResize(k, Eigen::NoChange)] for [k <= a.rows()]: the
    number of columns stays, every column keeps its first [k] coefficients.
    The class calls it under that guard only, where no coefficient is left
    uninitialised. *)
Definition conservativeResize_rows (a : ArrayXXd) (k : nat) : ArrayXXd :=
  mkArrayXXd k (map (firstn k) (columns a)).

(** [a.resize(k, 1); a.setOnes(k, 1);] *)
Definition setOnes (k : nat) : ArrayXXd := Constant k 1 1%float.

(** [Eigen::VectorXd(0)] and [Eigen::ArrayXXd(0, 1)]: no row, one column. *)
Definition empty_vector : ArrayXXd := mkArrayXXd 0 [[]].

(** Every coefficient is a NaN. *)
Definition all_nan (a : ArrayXXd) : Prop :=
  Forall (Forall (fun v => is_nan v = true)) (columns a).

(** Every column has one coefficient per row. *)
Definition well_shaped (a : ArrayXXd) : Prop :=
  Forall (fun col => List.length col = rows a) (columns a).

(** ** Outcomes of a call *)

(** What a C++ call can raise. [std::underflow_error] and
    [std::overflow_error] are the two classes the evaluation entry points
    catch; every other exception is [other_exception]. A failed
    [eigen_assert] (a negative size, operands of different dimensions) ends
    the call as well and is caught by no handler. *)
Inductive exn : Type :=
| underflow_error
| overflow_error
| other_exception
| eigen_assert_failure.

Inductive outcome (A : Type) : Type :=
| Returned (a : A)
| Thrown (e : exn).
Arguments Returned {A} a.
Arguments Thrown {A} e.

(** ** The object *)

Record AGraph : Type := mkAGraph {
  command_array_ : ArrayX3i;
  simplified_command_array_ : ArrayX3i;
  simplified_constants_ : ArrayXXd;
  needs_opt_ : bool;
  fitness_ : float;
  fit_set_ : bool;
  genetic_age_ : Z;
  modified_ : bool;
  use_simplification_ : bool
}.

(** [AGraphState], the tuple [DumpState] returns, has the fields of the
    object in the order of the declaration. *)
Definition AGraphState : Type :=
  (ArrayX3i * ArrayX3i * ArrayXXd * bool * float * bool * Z * bool * bool)%type.

Definition set_command_array_ (v : ArrayX3i) (g : AGraph) : AGraph :=
  mkAGraph v (simplified_command_array_ g) (simplified_constants_ g)
    (needs_opt_ g) (fitness_ g) (fit_set_ g) (genetic_age_ g) (modified_ g)
    (use_simplification_ g).

Definition set_simplified_command_array_ (v : ArrayX3i) (g : AGraph) : AGraph :=
  mkAGraph (command_array_ g) v (simplified_constants_ g)
    (needs_opt_ g) (fitness_ g) (fit_set_ g) (genetic_age_ g) (modified_ g)
    (use_simplification_ g).

Definition set_simplified_constants_ (v : ArrayXXd) (g : AGraph) : AGraph :=
  mkAGraph (command_array_ g) (simplified_command_array_ g) v
    (needs_opt_ g) (fitness_ g) (fit_set_ g) (genetic_age_ g) (modified_ g)
    (use_simplification_ g).

Definition set_needs_opt_ (v : bool) (g : AGraph) : AGraph :=
  mkAGraph (command_array_ g) (simplified_command_array_ g)
    (simplified_constants_ g) v (fitness_ g) (fit_set_ g) (genetic_age_ g)
    (modified_ g) (use_simplification_ g).

Definition set_fitness_ (v : float) (g : AGraph) : AGraph :=
  mkAGraph (command_array_ g) (simplified_command_array_ g)
    (simplified_constants_ g) (needs_opt_ g) v (fit_set_ g) (genetic_age_ g)
    (modified_ g) (use_simplification_ g).

Definition set_fit_set_ (v : bool) (g : AGraph) : AGraph :=
  mkAGraph (command_array_ g) (simplified_command_array_ g)
    (simplified_constants_ g) (needs_opt_ g) (fitness_ g) v (genetic_age_ g)
    (modified_ g) (use_simplification_ g).

Definition set_genetic_age_ (v : Z) (g : AGraph) : AGraph :=
  mkAGraph (command_array_ g) (simplified_command_array_ g)
    (simplified_constants_ g) (needs_opt_ g) (fitness_ g) (fit_set_ g) v
    (modified_ g) (use_simplification_ g).

Definition set_modified_ (v : bool) (g : AGraph) : AGraph :=
  mkAGraph (command_array_ g) (simplified_command_array_ g)
    (simplified_constants_ g) (needs_opt_ g) (fitness_ g) (fit_set_ g)
    (genetic_age_ g) v (use_simplification_ g).

(** ** Calls into the backends *)

(** A call the object makes into code outside this file, with its
    arguments. *)
Inductive Call : Type :=
| call_SimplifyStack (stack : ArrayX3i)
| call_PythonSimplifyStack (stack : ArrayX3i)
| call_GetUtilizedCommands (stack : ArrayX3i)
| call_Evaluate (stack : ArrayX3i) (x constants : ArrayXXd)
| call_EvaluateWithDerivative (stack : ArrayX3i) (x constants : ArrayXXd)
    (param_x_or_c : bool)
| call_GetFormattedString (format : string) (stack : ArrayX3i)
    (constants : ArrayXXd).

(** The object together with the calls made so far. *)
Record Machine : Type := mkMachine {
  this : AGraph;
  log : list Call
}.

(** ** Computations *)

Definition M (A : Type) : Type := Machine -> outcome A * Machine.

Definition ret {A : Type} (a : A) : M A := fun m => (Returned a, m).

Definition bind {A B : Type} (c : M A) (k : A -> M B) : M B :=
  fun m =>
    match c m with
    | (Returned a, m') => k a m'
    | (Thrown e, m') => (Thrown e, m')
    end.

Declare Scope cpp_scope.
Delimit Scope cpp_scope with cpp.
Notation "x <- c ;; k" := (bind c (fun x => k))
  (at level 61, c at next level, right associativity) : cpp_scope.
Notation "c ;; k" := (bind c (fun _ => k))
  (at level 61, right associativity) : cpp_scope.
Local Open Scope cpp_scope.

(** Read the fields of [*this]. *)
Definition self : M AGraph := fun m => (Returned (this m), m).

(** Assign to fields of [*this]. *)
Definition assign (f : AGraph -> AGraph) : M unit :=
  fun m => (Returned tt, mkMachine (f (this m)) (log m)).

(** [if (b) { c }] *)
Definition when (b : bool) (c : M unit) : M unit := if b then c else ret tt.

(** A call into a backend: recorded, then its outcome is the outcome of the
    expression. *)
Definition call {A : Type} (ev : Call) (r : outcome A) : M A :=
  fun m => (r, mkMachine (this m) (log m ++ [ev])).

(** [try { c } catch (const std::underflow_error &) { h }
          catch (const std::overflow_error &) { h' }] *)
Definition try_catch {A : Type} (c : M A) (on_underflow on_overflow : M A) : M A :=
  fun m =>
    match c m with
    | (Thrown underflow_error, m') => on_underflow m'
    | (Thrown overflow_error, m') => on_overflow m'
    | r => r
    end.

(** A size handed to Eigen: [eigen_assert] refuses a negative one. *)
Definition eigen_size (k : Z) : M nat :=
  fun m => if k <? 0 then (Thrown eigen_assert_failure, m)
           else (Returned (Z.to_nat k), m).

(** ** The backends *)

(** [operator_definitions.h]: of the opcode enumeration the class uses the
    code of the constant terminal only; its number is left open. *)
Module Op.
Class t : Type := { kConstant : Z }.
End Op.

(** [simplification_backend.h]. [PythonSimplifyStack] hands the stack to an
    external simplifier; like any C++ call, each function returns or throws. *)
Module simplification_backend.
Class t : Type := {
  SimplifyStack : ArrayX3i -> outcome ArrayX3i;
  PythonSimplifyStack : ArrayX3i -> outcome ArrayX3i;
  GetUtilizedCommands : ArrayX3i -> outcome (list bool)
}.
End simplification_backend.

(** [evaluation_backend.h]. [EvalAndDerivative] is a pair of arrays; the
    last argument of [EvaluateWithDerivative] selects the derivative with
    respect to [x] ([true]) or to the constants ([false]). *)
Definition EvalAndDerivative : Type := (ArrayXXd * ArrayXXd)%type.

Module evaluation_backend.
Class t : Type := {
  Evaluate : ArrayX3i -> ArrayXXd -> ArrayXXd -> outcome ArrayXXd;
  EvaluateWithDerivative :
    ArrayX3i -> ArrayXXd -> ArrayXXd -> bool -> outcome EvalAndDerivative
}.
End evaluation_backend.

(** [string_generation.h]. *)
Module string_generation.
Class t : Type := {
  GetFormattedString :
    string -> ArrayX3i -> ArrayXXd -> outcome string
}.
End string_generation.

(** ** Coefficient-wise comparison of command arrays *)

(** [a != b] on two rows: one boolean per coefficient. *)
Definition row_ne (r s : Row) : list bool :=
  map (fun j => negb (row_coeff r j =? row_coeff s j))
      [kOpIdx; kFirstArgumentIndex; kSecondArgumentIndex].

(** [a != b] on arrays of equal dimensions: the boolean array, row by row. *)
Definition cwise_ne (a b : ArrayX3i) : list (list bool) :=
  map (fun rs => row_ne (fst rs) (snd rs)) (combine a b).

(** [.count()] of a boolean array: the number of true coefficients. *)
Definition count (m : list (list bool)) : nat :=
  List.length (filter (fun b => b) (concat m)).

(** ** Constructors *)

(** [AGraph::AGraph(const bool use_simplification)] *)
Definition AGraph_new (use_simplification : bool) : AGraph :=
  {| command_array_ := [];
     simplified_command_array_ := [];
     simplified_constants_ :=
       mkArrayXXd kInitialCommandRows (repeat [] kInitialConstantsCol);
     needs_opt_ := false;
     fitness_ := kFitnessNotSet;
     fit_set_ := false;
     genetic_age_ := 0;
     modified_ := false;
     use_simplification_ := use_simplification |}.

(** [AGraph::AGraph(const AGraph &agraph)] *)
Definition AGraph_copy (agraph : AGraph) : AGraph :=
  {| command_array_ := command_array_ agraph;
     simplified_command_array_ := simplified_command_array_ agraph;
     simplified_constants_ := simplified_constants_ agraph;
     needs_opt_ := needs_opt_ agraph;
     fitness_ := fitness_ agraph;
     fit_set_ := fit_set_ agraph;
     genetic_age_ := genetic_age_ agraph;
     modified_ := modified_ agraph;
     use_simplification_ := use_simplification_ agraph |}.

(** [AGraph::AGraph(const AGraphState &state)] *)
Definition AGraph_of_state (state : AGraphState) : AGraph :=
  let '(s0, s1, s2, s3, s4, s5, s6, s7, s8) := state in
  {| command_array_ := s0;
     simplified_command_array_ := s1;
     simplified_constants_ := s2;
     needs_opt_ := s3;
     fitness_ := s4;
     fit_set_ := s5;
     genetic_age_ := s6;
     modified_ := s7;
     use_simplification_ := s8 |}.

(** ** Methods *)

Section Methods.

Context {OP : Op.t} {SB : simplification_backend.t}
        {EB : evaluation_backend.t} {SG : string_generation.t}.

Definition Copy : M AGraph :=
  g <- self ;; ret (AGraph_copy g).

Definition DumpState : M AGraphState :=
  g <- self ;;
  ret (command_array_ g, simplified_command_array_ g,
       simplified_constants_ g, needs_opt_ g, fitness_ g, fit_set_ g,
       genetic_age_ g, modified_ g, use_simplification_ g).

Definition GetCommandArray : M ArrayX3i :=
  g <- self ;; ret (command_array_ g).

Definition notify_agraph_modification : M unit :=
  assign (set_fitness_ kFitnessNotSet) ;;
  assign (set_fit_set_ false) ;;
  assign (set_modified_ true).

(** Returns a reference to [command_array_]; the value read through it at
    the time of the call is the result here, a later store through it is
    [store_command_array]. *)
Definition GetCommandArrayModifiable : M ArrayX3i :=
  notify_agraph_modification ;;
  g <- self ;; ret (command_array_ g).

(** A store through the reference [GetCommandArrayModifiable] returned: it
    writes the field and calls no method. *)
Definition store_command_array (command_array : ArrayX3i) : M unit :=
  assign (set_command_array_ command_array).

Definition SetCommandArray (command_array : ArrayX3i) : M unit :=
  assign (set_command_array_ command_array) ;;
  notify_agraph_modification.

Definition GetFitness : M float :=
  g <- self ;; ret (fitness_ g).

Definition SetFitness (fitness : float) : M unit :=
  assign (set_fitness_ fitness) ;;
  assign (set_fit_set_ true).

Definition IsFitnessSet : M bool :=
  g <- self ;; ret (fit_set_ g).

Definition SetFitnessStatus (val : bool) : M unit :=
  assign (set_fit_set_ val).

Definition SetGeneticAge (age : Z) : M unit :=
  assign (set_genetic_age_ age).

Definition GetGeneticAge : M Z :=
  g <- self ;; ret (genetic_age_ g).

Definition GetUtilizedCommands : M (list bool) :=
  g <- self ;;
  call (call_GetUtilizedCommands (command_array_ g))
       (simplification_backend.GetUtilizedCommands (command_array_ g)).

Definition updateSimplifiedCommandArray : M unit :=
  g <- self ;;
  if use_simplification_ g then
    s <- call (call_PythonSimplifyStack (command_array_ g))
              (simplification_backend.PythonSimplifyStack (command_array_ g)) ;;
    assign (set_simplified_command_array_ s)
  else
    s <- call (call_SimplifyStack (command_array_ g))
              (simplification_backend.SimplifyStack (command_array_ g)) ;;
    assign (set_simplified_command_array_ s).

(** The loop of [countAndUpdateConstants] from row [i] on, with the counter
    at [new_const_number]: the rewritten rows and the final counter. *)
Fixpoint renumber_from (stack : ArrayX3i) (new_const_number : Z)
  : ArrayX3i * Z :=
  match stack with
  | [] => ([], new_const_number)
  | r :: rest =>
      if row_coeff r kOpIdx =? Op.kConstant then
        let '(rest', n) := renumber_from rest (int_incr new_const_number) in
        ((Op.kConstant, new_const_number, new_const_number) :: rest', n)
      else
        let '(rest', n) := renumber_from rest new_const_number in
        (r :: rest', n)
  end.

Definition countAndUpdateConstants : M Z :=
  g <- self ;;
  let '(stack, new_const_number) :=
    renumber_from (simplified_command_array_ g) 0 in
  assign (set_simplified_command_array_ stack) ;;
  ret new_const_number.

Definition performDefaultConstantResize (const_number_input : Z) : M unit :=
  k <- eigen_size const_number_input ;;
  assign (set_simplified_constants_ (setOnes k)) ;;
  when (const_number_input >? 0) (assign (set_needs_opt_ true)).

Definition resizeConstantsArrayIfNeeded (const_number_input : Z) : M unit :=
  let optimization_aggression := 0 in
  g <- self ;;
  let m := Z.of_nat (rows (simplified_constants_ g)) in
  if (optimization_aggression =? 0) && (const_number_input <=? m) then
    k <- eigen_size const_number_input ;;
    assign (set_simplified_constants_
              (conservativeResize_rows (simplified_constants_ g) k))
  else if (optimization_aggression =? 1) && (const_number_input =? m) then
    ret tt
  else
    performDefaultConstantResize const_number_input.

Definition updateConstantsArray : M unit :=
  new_const_number <- countAndUpdateConstants ;;
  resizeConstantsArrayIfNeeded new_const_number.

Definition update : M unit :=
  updateSimplifiedCommandArray ;;
  updateConstantsArray ;;
  assign (set_modified_ false).

Definition NeedsLocalOptimization : M bool :=
  g <- self ;;
  when (modified_ g) update ;;
  g <- self ;; ret (needs_opt_ g).

Definition GetNumberLocalOptimizationParams : M Z :=
  g <- self ;;
  when (modified_ g) update ;;
  g <- self ;; ret (wrap32 (Z.of_nat (rows (simplified_constants_ g)))).

(** The three overloads ([Eigen::Ref<Eigen::ArrayXXd>], [Eigen::VectorXd],
    [Eigen::ArrayXXd]) have the same body. *)
Definition SetLocalOptimizationParams (params : ArrayXXd) : M unit :=
  assign (set_simplified_constants_ params) ;;
  assign (set_needs_opt_ false).

Definition GetLocalOptimizationParams : M ArrayXXd :=
  g <- self ;; ret (simplified_constants_ g).

Definition EvaluateEquationAt (x : ArrayXXd) : M ArrayXXd :=
  g <- self ;;
  when (modified_ g) update ;;
  try_catch
    (g <- self ;;
     f_of_x <- call (call_Evaluate (simplified_command_array_ g) x
                                   (simplified_constants_ g))
                    (evaluation_backend.Evaluate
                       (simplified_command_array_ g) x
                       (simplified_constants_ g)) ;;
     ret f_of_x)
    (ret (Constant (rows x) (cols x) kNaN))
    (ret (Constant (rows x) (cols x) kNaN)).

Definition EvaluateEquationWithXGradientAt (x : ArrayXXd)
  : M EvalAndDerivative :=
  g <- self ;;
  when (modified_ g) update ;;
  try_catch
    (g <- self ;;
     df_dx <- call (call_EvaluateWithDerivative (simplified_command_array_ g)
                      x (simplified_constants_ g) true)
                   (evaluation_backend.EvaluateWithDerivative
                      (simplified_command_array_ g) x
                      (simplified_constants_ g) true) ;;
     ret df_dx)
    (let nan_array := Constant (rows x) (cols x) kNaN in
     ret (nan_array, nan_array))
    (let nan_array := Constant (rows x) (cols x) kNaN in
     ret (nan_array, nan_array)).

Definition EvaluateEquationWithLocalOptGradientAt (x : ArrayXXd)
  : M EvalAndDerivative :=
  g <- self ;;
  when (modified_ g) update ;;
  try_catch
    (g <- self ;;
     df_dc <- call (call_EvaluateWithDerivative (simplified_command_array_ g)
                      x (simplified_constants_ g) false)
                   (evaluation_backend.EvaluateWithDerivative
                      (simplified_command_array_ g) x
                      (simplified_constants_ g) false) ;;
     ret df_dc)
    (let nan_array := Constant (rows x) (cols x) kNaN in
     ret (nan_array, nan_array))
    (let nan_array := Constant (rows x) (cols x) kNaN in
     ret (nan_array, nan_array)).

Definition GetFormattedString (format : string) (raw : bool)
  : M string :=
  if raw then
    g <- self ;;
    call (call_GetFormattedString format (command_array_ g)
                                  empty_vector)
         (string_generation.GetFormattedString format (command_array_ g)
                                               empty_vector)
  else
    g <- self ;;
    when (modified_ g) update ;;
    g <- self ;;
    call (call_GetFormattedString format (simplified_command_array_ g)
                                  (simplified_constants_ g))
         (string_generation.GetFormattedString format
            (simplified_command_array_ g) (simplified_constants_ g)).

Definition GetConsoleString : M string :=
  GetFormattedString "console"%string false.

Definition GetComplexity : M Z :=
  g <- self ;;
  when (modified_ g) update ;;
  g <- self ;; ret (wrap32 (Z.of_nat (List.length (simplified_command_array_ g)))).

(** [(command_array_ != agraph.GetCommandArray()).count()]: Eigen compares
    coefficient by coefficient and asserts that the operands have the same
    dimensions. *)
Definition Distance (agraph : AGraph) : M Z :=
  g <- self ;;
  let other := command_array_ agraph in
  if Nat.eqb (List.length (command_array_ g)) (List.length other) then
    ret (wrap32 (Z.of_nat (count (cwise_ne (command_array_ g) other))))
  else
    fun m => (Thrown eigen_assert_failure, m).

End Methods.

(** ** Sequences of calls on one object *)

(** The public interface, one constructor per method, and the store through
    the reference [GetCommandArrayModifiable] hands out. *)
Inductive Operation : Type :=
| op_Copy
| op_DumpState
| op_GetCommandArray
| op_GetCommandArrayModifiable
| op_store_command_array (command_array : ArrayX3i)
| op_SetCommandArray (command_array : ArrayX3i)
| op_GetFitness
| op_SetFitness (fitness : float)
| op_IsFitnessSet
| op_SetFitnessStatus (val : bool)
| op_SetGeneticAge (age : Z)
| op_GetGeneticAge
| op_GetUtilizedCommands
| op_NeedsLocalOptimization
| op_GetNumberLocalOptimizationParams
| op_SetLocalOptimizationParams (params : ArrayXXd)
| op_GetLocalOptimizationParams
| op_EvaluateEquationAt (x : ArrayXXd)
| op_EvaluateEquationWithXGradientAt (x : ArrayXXd)
| op_EvaluateEquationWithLocalOptGradientAt (x : ArrayXXd)
| op_GetConsoleString
| op_GetFormattedString (format : string) (raw : bool)
| op_GetComplexity
| op_Distance (agraph : AGraph).

(** The writes to the raw command array. *)
Definition is_raw_write (o : Operation) : bool :=
  match o with
  | op_GetCommandArrayModifiable | op_store_command_array _
  | op_SetCommandArray _ => true
  | _ => false
  end.

(** The accessors that serve their request from the derived state. *)
Definition is_derived_accessor (o : Operation) : bool :=
  match o with
  | op_NeedsLocalOptimization | op_GetNumberLocalOptimizationParams
  | op_EvaluateEquationAt _ | op_EvaluateEquationWithXGradientAt _
  | op_EvaluateEquationWithLocalOptGradientAt _
  | op_GetConsoleString | op_GetFormattedString _ false
  | op_GetComplexity => true
  | _ => false
  end.


(** The calls after which the flag and the stored fitness still agree:
    every call but [SetFitness] with a value equal to [1e9] and the bare
    flag setter [SetFitnessStatus]. *)
Definition keeps_sentinel_discipline (o : Operation) : bool :=
  match o with
  | op_SetFitness fitness => negb (double_eq fitness kFitnessNotSet)
  | op_SetFitnessStatus _ => false
  | _ => true
  end.

(** A run of the simplification step, whichever strategy served it. *)
Definition is_simplifier_call (c : Call) : bool :=
  match c with
  | call_SimplifyStack _ | call_PythonSimplifyStack _ => true
  | _ => false
  end.

Definition pipeline_runs (l : list Call) : nat :=
  List.length (filter is_simplifier_call l).

Section Sequences.

Context {OP : Op.t} {SB : simplification_backend.t}
        {EB : evaluation_backend.t} {SG : string_generation.t}.

(** A call whose result the caller drops. *)
Definition discard {A : Type} (c : M A) : M unit := c ;; ret tt.

Definition run_op (o : Operation) : M unit :=
  match o with
  | op_Copy => discard Copy
  | op_DumpState => discard DumpState
  | op_GetCommandArray => discard GetCommandArray
  | op_GetCommandArrayModifiable => discard GetCommandArrayModifiable
  | op_store_command_array c => store_command_array c
  | op_SetCommandArray c => SetCommandArray c
  | op_GetFitness => discard GetFitness
  | op_SetFitness fitness => SetFitness fitness
  | op_IsFitnessSet => discard IsFitnessSet
  | op_SetFitnessStatus val => SetFitnessStatus val
  | op_SetGeneticAge age => SetGeneticAge age
  | op_GetGeneticAge => discard GetGeneticAge
  | op_GetUtilizedCommands => discard GetUtilizedCommands
  | op_NeedsLocalOptimization => discard NeedsLocalOptimization
  | op_GetNumberLocalOptimizationParams =>
      discard GetNumberLocalOptimizationParams
  | op_SetLocalOptimizationParams params => SetLocalOptimizationParams params
  | op_GetLocalOptimizationParams => discard GetLocalOptimizationParams
  | op_EvaluateEquationAt x => discard (EvaluateEquationAt x)
  | op_EvaluateEquationWithXGradientAt x =>
      discard (EvaluateEquationWithXGradientAt x)
  | op_EvaluateEquationWithLocalOptGradientAt x =>
      discard (EvaluateEquationWithLocalOptGradientAt x)
  | op_GetConsoleString => discard GetConsoleString
  | op_GetFormattedString format raw => discard (GetFormattedString format raw)
  | op_GetComplexity => discard GetComplexity
  | op_Distance agraph => discard (Distance agraph)
  end.

(** The object after one call, whether the call returned or threw: a caller
    that catches the exception goes on with the same object. *)
Definition exec (o : Operation) (m : Machine) : Machine := snd (run_op o m).

Definition run_ops (ops : list Operation) (m : Machine) : Machine :=
  fold_left (fun m o => exec o m) ops m.

(** The strategy [updateSimplifiedCommandArray] selects for an object. *)
Definition configured_simplifier (g : AGraph) : ArrayX3i -> outcome ArrayX3i :=
  if use_simplification_ g then simplification_backend.PythonSimplifyStack
  else simplification_backend.SimplifyStack.

Definition configured_simplifier_call (g : AGraph) : ArrayX3i -> Call :=
  if use_simplification_ g then call_PythonSimplifyStack
  else call_SimplifyStack.

End Sequences.

(** ** Vocabulary of the statements *)

Section Vocabulary.

Context {OP : Op.t}.

(** A row is a constant terminal when its opcode is [Op::kConstant]. *)
Definition is_constant (r : Row) : bool :=
  row_coeff r kOpIdx =? Op.kConstant.

Definition constant_rows (stack : ArrayX3i) : list Row :=
  filter is_constant stack.

Definition count_constants (stack : ArrayX3i) : nat :=
  List.length (constant_rows stack).

End Vocabulary.

Definition arg1 (r : Row) : Z := row_coeff r kFirstArgumentIndex.
Definition arg2 (r : Row) : Z := row_coeff r kSecondArgumentIndex.

(** The integers [0, 1, ..., k-1]. *)
Definition iota (k : nat) : list Z := map Z.of_nat (seq 0 k).

(** The array fits the [int] the class counts and indexes its rows with. *)
Definition fits_int (stack : ArrayX3i) : Prop :=
  Z.of_nat (List.length stack) <= INT_MAX.

(** The fields no step of the pipeline assigns. *)
Definition same_raw (g g' : AGraph) : Prop :=
  command_array_ g' = command_array_ g /\
  use_simplification_ g' = use_simplification_ g /\
  fitness_ g' = fitness_ g /\
  fit_set_ g' = fit_set_ g /\
  genetic_age_ g' = genetic_age_ g.


(** The calls that assign the fitness or its flag. *)
Definition touches_fitness (o : Operation) : bool :=
  match o with
  | op_SetFitness _ | op_SetFitnessStatus _
  | op_GetCommandArrayModifiable | op_SetCommandArray _ => true
  | _ => false
  end.

(** The writes that go through [notify_agraph_modification]. *)
Definition is_notifying_write (o : Operation) : bool :=
  match o with
  | op_GetCommandArrayModifiable | op_SetCommandArray _ => true
  | _ => false
  end.

(** A computation that assigns no field and runs no simplifier. *)
Definition reads_only {A : Type} (c : M A) : Prop :=
  forall m : Machine,
    this (snd (c m)) = this m /\
    pipeline_runs (log (snd (c m))) = pipeline_runs (log m).

Section Guard.

Context {OP : Op.t} {SB : simplification_backend.t}.

(** The guard every derived accessor opens with:
    [if (modified_) { update(); }]. *)
Definition refresh : M unit :=
  g <- self ;; when (modified_ g) update.

End Guard.

(** The stored fitness compares equal to [kFitnessNotSet] exactly when the
    flag is down. *)
Definition flag_tracks_sentinel (g : AGraph) : Prop :=
  double_eq (fitness_ g) kFitnessNotSet = negb (fit_set_ g).

(** Coefficient [(i, j)] of a command array. *)
Definition coeff3 (a : ArrayX3i) (i j : nat) : Z :=
  row_coeff (nth i a (0, 0, 0)) j.

(** The positions [(i, j)], row and field, at which two arrays of the same
    number of rows hold different coefficients. *)
Definition differing_fields (a b : ArrayX3i) : list (nat * nat) :=
  filter (fun p => negb (coeff3 a (fst p) (snd p) =? coeff3 b (fst p) (snd p)))
         (list_prod (seq 0 (List.length a))
                    [kOpIdx; kFirstArgumentIndex; kSecondArgumentIndex]).

(** Two rows agree in their three fields. *)
Definition row_eqb (r s : Row) : bool :=
  (row_coeff r kOpIdx =? row_coeff s kOpIdx)
  && (row_coeff r kFirstArgumentIndex =? row_coeff s kFirstArgumentIndex)
  && (row_coeff r kSecondArgumentIndex =? row_coeff s kSecondArgumentIndex).

(** The rows at which two arrays of the same number of rows differ, a row
    counting as different when any of its fields does. *)
Definition differing_rows (a b : ArrayX3i) : list nat :=
  filter (fun i => negb (row_eqb (nth i a (0, 0, 0)) (nth i b (0, 0, 0))))
         (seq 0 (List.length a)).

(** What the two catch clauses of an evaluation entry point make of the
    outcome of the backend. *)
Definition nan_on_distress {A : Type} (nan_result : A) (r : outcome A)
  : outcome A :=
  match r with
  | Thrown underflow_error | Thrown overflow_error => Returned nan_result
  | _ => r
  end.

(** ** Sample backends and objects *)

(** The opcode numbering of the examples: 0 a variable, 1 a constant, 2 an
    addition. *)
Definition sample_Op : Op.t := {| Op.kConstant := 1 |}.

(** A local simplifier that returns the stack as it is, an external
    simplifier that is unavailable, a liveness analysis that keeps every
    row. *)
Definition sample_simplification : simplification_backend.t :=
  {| simplification_backend.SimplifyStack := fun stack => Returned stack;
     simplification_backend.PythonSimplifyStack :=
       fun _ => Thrown other_exception;
     simplification_backend.GetUtilizedCommands :=
       fun stack => Returned (map (fun _ => true) stack) |}.

(** An evaluator on which every evaluation overflows. *)
Definition overflowing_evaluation : evaluation_backend.t :=
  {| evaluation_backend.Evaluate := fun _ _ _ => Thrown overflow_error;
     evaluation_backend.EvaluateWithDerivative :=
       fun _ _ _ _ => Thrown overflow_error |}.

(** Modelled from the spec: the evaluation backend is not in
    [agraph.cpp]; this one has the shapes the specification gives a
    successful evaluation (one value per sample; a per-sample Jacobian over
    the feature axis, or over the constant-index axis), with 1.0 for every
    value and 0.0 for every derivative. *)
Definition shaped_evaluation : evaluation_backend.t :=
  {| evaluation_backend.Evaluate :=
       fun _ x _ => Returned (Constant (rows x) 1 1%float);
     evaluation_backend.EvaluateWithDerivative :=
       fun _ x constants param_x_or_c =>
         Returned (Constant (rows x) 1 1%float,
                   Constant (rows x)
                     (if param_x_or_c then cols x else rows constants)
                     0%float) |}.

Definition sample_strings : string_generation.t :=
  {| string_generation.GetFormattedString := fun _ _ _ => Returned EmptyString |}.

(** A freshly constructed object, before any call. *)
Definition fresh_machine (use_simplification : bool) : Machine :=
  mkMachine (AGraph_new use_simplification) [].

(** [constant_0 + variable_0] with stale indices on the constant, and a
    second constant that is not used. *)
Definition sample_stack : ArrayX3i :=
  [(1, 7, 7); (0, 0, 0); (1, 7, 7); (2, 0, 1)].

(** One sample with two features. *)
Definition sample_x : ArrayXXd := mkArrayXXd 1 [[2%float]; [3%float]].

(** A stale object: [sample_stack] has just been written as its raw array. *)
Definition sample_stale (use_simplification : bool) : Machine :=
  mkMachine
    (set_modified_ true
       (set_command_array_ sample_stack (AGraph_new use_simplification)))
    [].

(** A fresh object for [constant_0 + variable_0] with the constant 5.0. *)
Definition sample_sum : Machine :=
  mkMachine
    {| command_array_ := [(1, 0, 0); (0, 0, 0); (2, 0, 1)];
       simplified_command_array_ := [(1, 0, 0); (0, 0, 0); (2, 0, 1)];
       simplified_constants_ := mkArrayXXd 1 [[5%float]];
       needs_opt_ := false;
       fitness_ := kFitnessNotSet;
       fit_set_ := false;
       genetic_age_ := 0;
       modified_ := false;
       use_simplification_ := false |}
    [].

(** Two one-row objects whose rows differ in all three fields. *)
Definition sample_left : AGraph :=
  set_command_array_ [(2, 0, 0)] (AGraph_new false).

Definition sample_right : AGraph :=
  set_command_array_ [(3, 1, 1)] (AGraph_new false).

(** ** Vocabulary of the further properties *)

(** The constants the manager leaves for a count [k]: the first [k] rows of
    the old ones when there are that many, [k] ones otherwise. *)
Definition reconciled_constants (c : ArrayXXd) (k : nat) : ArrayXXd :=
  if (k <=? rows c)%nat then conservativeResize_rows c k else setOnes k.

(** The needs-optimization flag the manager leaves for a count [k]. *)
Definition reconciled_needs_opt (c : ArrayXXd) (flag : bool) (k : nat) : bool :=
  if (k <=? rows c)%nat then flag else true.

Section Updated.

Context {OP : Op.t}.

(** The object a completed [update] leaves, given the array [s] the
    simplifier returned. *)
Definition updated (s : ArrayX3i) (g : AGraph) : AGraph :=
  {| command_array_ := command_array_ g;
     simplified_command_array_ := fst (renumber_from s 0);
     simplified_constants_ :=
       reconciled_constants (simplified_constants_ g) (count_constants s);
     needs_opt_ :=
       reconciled_needs_opt (simplified_constants_ g) (needs_opt_ g)
                            (count_constants s);
     fitness_ := fitness_ g;
     fit_set_ := fit_set_ g;
     genetic_age_ := genetic_age_ g;
     modified_ := false;
     use_simplification_ := use_simplification_ g |}.

End Updated.

(** The calls that assign the cached constants or the needs-optimization
    flag without going through [update]. *)
Definition sets_params (o : Operation) : bool :=
  match o with
  | op_SetLocalOptimizationParams _ => true
  | _ => false
  end.

Definition sets_age (o : Operation) : bool :=
  match o with
  | op_SetGeneticAge _ => true
  | _ => false
  end.

(** The distance as a number, for two arrays of the same number of rows. *)
Definition hamming (a b : ArrayX3i) : nat := count (cwise_ne a b).

(** A stale object holding two constants: [sample_stack] has just been
    written as its raw array. *)
Definition sample_stale_two : Machine :=
  mkMachine
    (set_simplified_constants_ (mkArrayXXd 2 [[5; 6]%float])
       (this (sample_stale false)))
    [].

(** An evaluator that fails on every call with an exception the class does
    not catch. *)
Definition failing_evaluation : evaluation_backend.t :=
  {| evaluation_backend.Evaluate := fun _ _ _ => Thrown other_exception;
     evaluation_backend.EvaluateWithDerivative :=
       fun _ _ _ _ => Thrown other_exception |}.

(** Calls and runs with the sample backends. *)
Definition sample_exec : Operation -> Machine -> Machine :=
  exec (OP := sample_Op) (SB := sample_simplification)
       (EB := shaped_evaluation) (SG := sample_strings).

Definition sample_run : list Operation -> Machine -> Machine :=
  run_ops (OP := sample_Op) (SB := sample_simplification)
          (EB := shaped_evaluation) (SG := sample_strings).

(** * Properties *)

Arguments wrap32 : simpl never.
Arguments int_incr : simpl never.

Lemma wrap32_small (z : Z) : - 2147483648 <= z <= INT_MAX -> wrap32 z = z.
Proof.
  unfold wrap32, INT_MAX. intros H.
  rewrite Z.mod_small by lia. lia.
Qed.

Lemma int_incr_small (n : Z) : 0 <= n < INT_MAX -> int_incr n = n + 1.
Proof.
  intros H. unfold int_incr. apply wrap32_small. unfold INT_MAX in *. lia.
Qed.

Section Renumbering.

Context {OP : Op.t}.

Lemma is_constant_renumbered (n : Z) :
  is_constant (Op.kConstant, n, n) = true.
Proof. unfold is_constant. simpl. apply Z.eqb_refl. Qed.

Lemma count_constants_cons (r : Row) (stack : ArrayX3i) :
  count_constants (r :: stack)
  = ((if is_constant r then 1 else 0) + count_constants stack)%nat.
Proof.
  unfold count_constants, constant_rows. simpl.
  destruct (is_constant r); reflexivity.
Qed.

Lemma count_constants_le_length (stack : ArrayX3i) :
  (count_constants stack <= List.length stack)%nat.
Proof. unfold count_constants, constant_rows. apply filter_length_le. Qed.

(** The loop, started with the counter at [n]: what it returns and what it
    leaves in each row. *)
Lemma renumber_from_spec (stack : ArrayX3i) :
  forall n : Z,
    0 <= n ->
    n + Z.of_nat (count_constants stack) <= INT_MAX ->
    snd (renumber_from stack n) = n + Z.of_nat (count_constants stack) /\
    List.length (fst (renumber_from stack n)) = List.length stack /\
    (forall i r, nth_error stack i = Some r ->
       nth_error (fst (renumber_from stack n)) i
       = Some (if is_constant r
               then (Op.kConstant,
                     n + Z.of_nat (count_constants (firstn i stack)),
                     n + Z.of_nat (count_constants (firstn i stack)))
               else r)) /\
    constant_rows (fst (renumber_from stack n))
    = map (fun c => (Op.kConstant, n + c, n + c))
          (iota (count_constants stack)).
Proof.
  induction stack as [|r rest IH]; intros n Hn Hfit.
  - simpl. repeat split.
    + unfold count_constants. simpl. lia.
    + intros [|i] r H; discriminate H.
  - rewrite count_constants_cons in Hfit |- *.
    simpl renumber_from. fold (is_constant r).
    revert Hfit. destruct (is_constant r) eqn:Hr; intros Hfit.
    + assert (Hinc : int_incr n = n + 1).
      { apply int_incr_small. lia. }
      rewrite Hinc.
      destruct (IH (n + 1)) as (Hsnd & Hlen & Hnth & Hcs); [lia | lia |].
      destruct (renumber_from rest (n + 1)) as [rest' n'] eqn:E.
      simpl in *. repeat split.
      * lia.
      * now rewrite Hlen.
      * intros [|i] r0 H; simpl in H |- *.
        -- injection H as <-. rewrite Hr.
           unfold count_constants. simpl. now rewrite Z.add_0_r.
        -- rewrite (Hnth i r0 H). rewrite count_constants_cons, Hr.
           destruct (is_constant r0); [|reflexivity].
           replace (n + 1 + Z.of_nat (count_constants (firstn i rest)))
             with (n + Z.of_nat (1 + count_constants (firstn i rest)))
             by lia.
           reflexivity.
      * unfold constant_rows in *. simpl. rewrite is_constant_renumbered.
        rewrite Hcs. unfold iota. simpl. rewrite Z.add_0_r. f_equal.
        rewrite <- seq_shift, !map_map. apply map_ext.
        intros a. rewrite Nat2Z.inj_succ.
        replace (n + 1 + Z.of_nat a) with (n + Z.succ (Z.of_nat a)) by lia.
        reflexivity.
    + destruct (IH n) as (Hsnd & Hlen & Hnth & Hcs); [lia | lia |].
      destruct (renumber_from rest n) as [rest' n'] eqn:E.
      simpl in *. repeat split.
      * exact Hsnd.
      * now rewrite Hlen.
      * intros [|i] r0 H; simpl in H |- *.
        -- injection H as <-. now rewrite Hr.
        -- rewrite (Hnth i r0 H). rewrite count_constants_cons, Hr.
           reflexivity.
      * unfold constant_rows in *. simpl. rewrite Hr. exact Hcs.
Qed.

End Renumbering.

Section Reconciliation.

Context {OP : Op.t}.

(** C7: [countAndUpdateConstants] on a simplified program with [k]
    constant-terminal rows (and a row count an [int] can hold) returns [k];
    it walks the rows in order and leaves in the [i]-th constant terminal
    the index [i] in both argument fields, whatever was there; other rows
    are untouched; afterwards the indices of the constant terminals read,
    in row order, 0, 1, ..., k-1. *)
Theorem countAndUpdateConstants_renumbers (m : Machine) :
  fits_int (simplified_command_array_ (this m)) ->
  exists stack' : ArrayX3i,
    countAndUpdateConstants m
    = (Returned (Z.of_nat (count_constants (simplified_command_array_ (this m)))),
       mkMachine (set_simplified_command_array_ stack' (this m)) (log m)) /\
    List.length stack' = List.length (simplified_command_array_ (this m)) /\
    (forall i r,
       nth_error (simplified_command_array_ (this m)) i = Some r ->
       nth_error stack' i
       = Some (if is_constant r
               then let c := Z.of_nat (count_constants
                                 (firstn i (simplified_command_array_ (this m)))) in
                    (Op.kConstant, c, c)
               else r)) /\
    count_constants stack' = count_constants (simplified_command_array_ (this m)) /\
    map arg1 (constant_rows stack')
    = iota (count_constants (simplified_command_array_ (this m))) /\
    map arg2 (constant_rows stack')
    = iota (count_constants (simplified_command_array_ (this m))).
Proof.
  intros Hfit. unfold fits_int in Hfit.
  pose proof (count_constants_le_length (simplified_command_array_ (this m)))
    as Hle.
  destruct (renumber_from_spec (simplified_command_array_ (this m)) 0)
    as (Hsnd & Hlen & Hnth & Hcs); [lia | lia |].
  exists (fst (renumber_from (simplified_command_array_ (this m)) 0)).
  unfold countAndUpdateConstants, bind, self, assign, ret.
  destruct (renumber_from (simplified_command_array_ (this m)) 0)
    as [stack' n] eqn:E.
  simpl in *. subst n. repeat split.
  - exact Hlen.
  - exact Hnth.
  - unfold count_constants at 1. rewrite Hcs. unfold iota.
    now rewrite !length_map, length_seq.
  - rewrite Hcs, map_map. unfold arg1. simpl. apply map_id.
  - rewrite Hcs, map_map. unfold arg2. simpl. apply map_id.
Qed.

End Reconciliation.

(** ** The constants vector manager *)

Lemma coeff_conservativeResize_rows (a : ArrayXXd) (k i j : nat) :
  (i < k)%nat ->
  coeff (conservativeResize_rows a k) i j = coeff a i j.
Proof.
  intros Hi. unfold coeff, conservativeResize_rows. simpl.
  assert (Hcol : forall (l : list (list float)) n,
             nth n (map (firstn k) l) [] = firstn k (nth n l [])).
  { induction l as [|c l IH]; intros [|n]; simpl;
      try (now rewrite firstn_nil); auto. }
  rewrite Hcol, nth_firstn.
  apply Nat.ltb_lt in Hi. now rewrite Hi.
Qed.

Lemma coeff_Constant (r c i j : nat) (v : float) :
  (i < r)%nat -> (j < c)%nat -> coeff (Constant r c v) i j = v.
Proof.
  intros Hi Hj. unfold coeff, Constant. simpl.
  rewrite (nth_indep _ [] (repeat v r)) by now rewrite repeat_length.
  rewrite nth_repeat.
  rewrite (nth_indep _ kNaN v) by now rewrite repeat_length.
  apply nth_repeat.
Qed.

(** C6: [resizeConstantsArrayIfNeeded] for a new count [k] and constants of
    [m] rows. If [k <= m] the vector keeps its first [k] values (every
    column its first [k] coefficients) and the needs-optimization flag is as
    before; otherwise the vector becomes [k] entries (one column) all equal
    to 1.0 and the flag is true. No other field changes and no backend is
    called. In particular three values and [k = 2] leave the first two with
    the flag as it was, two values and [k = 5] give five ones with the flag
    true. *)
Theorem resizeConstantsArrayIfNeeded_policy (m : Machine) (k : nat) :
  exists constants' needs_opt',
    resizeConstantsArrayIfNeeded (Z.of_nat k) m
    = (Returned tt,
       mkMachine (set_needs_opt_ needs_opt'
                    (set_simplified_constants_ constants' (this m)))
                 (log m)) /\
    (if (k <=? rows (simplified_constants_ (this m)))%nat
     then constants' = conservativeResize_rows (simplified_constants_ (this m)) k /\
          rows constants' = k /\
          cols constants' = cols (simplified_constants_ (this m)) /\
          (forall i j, (i < k)%nat ->
             coeff constants' i j = coeff (simplified_constants_ (this m)) i j) /\
          needs_opt' = needs_opt_ (this m)
     else constants' = Constant k 1 1%float /\
          rows constants' = k /\
          cols constants' = 1%nat /\
          (forall i, (i < k)%nat -> coeff constants' i 0 = 1%float) /\
          needs_opt' = true) /\
    (forall a b c : float,
       simplified_constants_ (this m) = mkArrayXXd 3 [[a; b; c]] ->
       k = 2%nat ->
       constants' = mkArrayXXd 2 [[a; b]] /\ needs_opt' = needs_opt_ (this m)) /\
    (forall a b : float,
       simplified_constants_ (this m) = mkArrayXXd 2 [[a; b]] ->
       k = 5%nat ->
       constants' = mkArrayXXd 5 [[1; 1; 1; 1; 1]%float] /\ needs_opt' = true).
Proof.
  destruct m as [g l]. simpl.
  unfold resizeConstantsArrayIfNeeded, performDefaultConstantResize,
    eigen_size, bind, self, assign, when, ret. simpl.
  assert (Hneg : (Z.of_nat k <? 0) = false) by (apply Z.ltb_ge; lia).
  destruct (k <=? rows (simplified_constants_ g))%nat eqn:Hk.
  - apply Nat.leb_le in Hk.
    assert (Hz : (Z.of_nat k <=? Z.of_nat (rows (simplified_constants_ g))) = true)
      by (apply Z.leb_le; lia).
    rewrite Hz, Hneg, Nat2Z.id.
    exists (conservativeResize_rows (simplified_constants_ g) k), (needs_opt_ g).
    split; [destruct g; reflexivity |]. split; [| split].
    + repeat split.
      * unfold cols. simpl. apply length_map.
      * intros i j Hi. now apply coeff_conservativeResize_rows.
    + intros a b c E ->. rewrite E. split; reflexivity.
    + intros a b E ->. rewrite E in Hk. simpl in Hk. lia.
  - apply Nat.leb_gt in Hk.
    assert (Hz : (Z.of_nat k <=? Z.of_nat (rows (simplified_constants_ g))) = false)
      by (apply Z.leb_gt; lia).
    assert (Hpos : (Z.of_nat k >? 0) = true) by (apply Z.gtb_lt; lia).
    rewrite Hz, Hneg, Hpos, Nat2Z.id. simpl.
    exists (Constant k 1 1%float), true.
    split; [destruct g; reflexivity |]. split; [| split].
    + repeat split.
      intros i Hi. apply coeff_Constant; lia.
    + intros a b c E ->. rewrite E in Hk. simpl in Hk. lia.
    + intros a b E ->. split; reflexivity.
Qed.

(** ** The update pipeline *)

Lemma bind_Returned {A B : Type} (c : M A) (k : A -> M B) (m m' : Machine)
    (a : A) :
  c m = (Returned a, m') -> bind c k m = k a m'.
Proof. intros H. unfold bind. now rewrite H. Qed.

Lemma bind_Thrown {A B : Type} (c : M A) (k : A -> M B) (m m' : Machine)
    (e : exn) :
  c m = (Thrown e, m') -> bind c k m = (Thrown e, m').
Proof. intros H. unfold bind. now rewrite H. Qed.

Lemma same_raw_refl (g : AGraph) : same_raw g g.
Proof. unfold same_raw. auto. Qed.

Lemma same_raw_trans (g1 g2 g3 : AGraph) :
  same_raw g1 g2 -> same_raw g2 g3 -> same_raw g1 g3.
Proof. unfold same_raw. intuition congruence. Qed.

Section Pipeline.

Context {OP : Op.t} {SB : simplification_backend.t}
        {EB : evaluation_backend.t} {SG : string_generation.t}.

Lemma updateSimplifiedCommandArray_outcome (m : Machine) :
  updateSimplifiedCommandArray m
  = match configured_simplifier (this m) (command_array_ (this m)) with
    | Returned s =>
        (Returned tt,
         mkMachine (set_simplified_command_array_ s (this m))
           (log m ++ [configured_simplifier_call (this m)
                        (command_array_ (this m))]))
    | Thrown e =>
        (Thrown e,
         mkMachine (this m)
           (log m ++ [configured_simplifier_call (this m)
                        (command_array_ (this m))]))
    end.
Proof.
  unfold updateSimplifiedCommandArray, configured_simplifier,
    configured_simplifier_call, bind, self, call, assign.
  simpl. destruct (use_simplification_ (this m)); simpl.
  - destruct (simplification_backend.PythonSimplifyStack _); reflexivity.
  - destruct (simplification_backend.SimplifyStack _); reflexivity.
Qed.

Lemma countAndUpdateConstants_outcome (m : Machine) :
  countAndUpdateConstants m
  = (Returned (snd (renumber_from (simplified_command_array_ (this m)) 0)),
     mkMachine
       (set_simplified_command_array_
          (fst (renumber_from (simplified_command_array_ (this m)) 0))
          (this m))
       (log m)).
Proof.
  unfold countAndUpdateConstants, bind, self, assign, ret. simpl.
  destruct (renumber_from (simplified_command_array_ (this m)) 0).
  reflexivity.
Qed.

(** The manager assigns the constants and the flag only, and calls nothing;
    it fails on a negative count alone. *)
Lemma resizeConstantsArrayIfNeeded_frame (k : Z) (m : Machine) :
  exists (r : outcome unit) (constants' : ArrayXXd) (needs_opt' : bool),
    resizeConstantsArrayIfNeeded k m
    = (r, mkMachine (set_needs_opt_ needs_opt'
                       (set_simplified_constants_ constants' (this m)))
                    (log m)) /\
    (0 <= k -> r = Returned tt).
Proof.
  destruct m as [g l]. destruct g as [ca sca sc no fi fs ga mo us].
  unfold resizeConstantsArrayIfNeeded, performDefaultConstantResize,
    eigen_size, bind, self, assign, when, ret. simpl.
  destruct (k <=? Z.of_nat (rows sc));
    destruct (k <? 0) eqn:Hneg; simpl;
    try destruct (k >? 0); simpl;
    try (apply Z.ltb_lt in Hneg);
    eexists _, _, _;
    (split; [unfold set_needs_opt_, set_simplified_constants_; simpl; reflexivity
           | intros; try reflexivity; lia]).
Qed.

(** Whatever its outcome, [update] makes exactly one call, to the configured
    simplifier on the raw array, and touches none of the raw array, the
    fitness, the flag, the age and the configuration; it clears [modified_]
    exactly when it returns. A failure of the simplifier leaves every field
    as it was; a simplifier that returns an array an [int] can index makes
    [update] return, with the renumbered array as the simplified one. *)
Lemma update_outcome (m : Machine) :
  exists (r : outcome unit) (g' : AGraph),
    update m
    = (r, mkMachine g'
            (log m ++ [configured_simplifier_call (this m)
                         (command_array_ (this m))])) /\
    same_raw (this m) g' /\
    modified_ g' = match r with
                   | Returned _ => false
                   | Thrown _ => modified_ (this m)
                   end /\
    (forall e,
       configured_simplifier (this m) (command_array_ (this m)) = Thrown e ->
       r = Thrown e /\ g' = this m) /\
    (forall s,
       configured_simplifier (this m) (command_array_ (this m)) = Returned s ->
       fits_int s ->
       r = Returned tt /\
       simplified_command_array_ g' = fst (renumber_from s 0)).
Proof.
  unfold update.
  pose proof (updateSimplifiedCommandArray_outcome m) as H1.
  destruct (configured_simplifier (this m) (command_array_ (this m)))
    as [s | e] eqn:Hs.
  - rewrite (bind_Returned _ _ _ _ _ H1).
    set (m1 := mkMachine (set_simplified_command_array_ s (this m)) _) in *.
    unfold updateConstantsArray.
    pose proof (countAndUpdateConstants_outcome m1) as H2.
    set (m2 := mkMachine _ (log m1)) in H2.
    destruct (resizeConstantsArrayIfNeeded_frame
                (snd (renumber_from (simplified_command_array_ (this m1)) 0))
                m2) as (r & c' & b' & H3 & Hr).
    assert (H4 : bind countAndUpdateConstants
                   (fun n => resizeConstantsArrayIfNeeded n) m1
                 = (r, mkMachine
                         (set_needs_opt_ b'
                            (set_simplified_constants_ c' (this m2)))
                         (log m2))).
    { rewrite (bind_Returned _ _ _ _ _ H2). exact H3. }
    assert (Hfit : forall s', s = s' -> fits_int s' ->
                     r = Returned tt).
    { intros s' <- Hf. apply Hr. subst m1. simpl.
      unfold fits_int in Hf.
      pose proof (count_constants_le_length s) as Hle.
      destruct (renumber_from_spec s 0) as (Hsnd & _); [lia | lia |].
      rewrite Hsnd. lia. }
    destruct r as [[] | e].
    + rewrite (bind_Returned _ _ _ _ _ H4).
      eexists (Returned tt), _. split; [reflexivity |].
      destruct (this m) eqn:Eg. subst m1 m2. simpl.
      split; [unfold same_raw; simpl; auto |].
      split; [reflexivity |].
      split; [discriminate |].
      intros s' E _. now injection E as <-.
    + rewrite (bind_Thrown _ _ _ _ _ H4).
      eexists (Thrown e), _. split; [reflexivity |].
      destruct (this m) eqn:Eg. subst m1 m2. simpl.
      split; [unfold same_raw; simpl; auto |].
      split; [reflexivity |].
      split; [discriminate |].
      intros s' E Hf. specialize (Hfit s' ltac:(congruence) Hf).
      discriminate Hfit.
  - rewrite (bind_Thrown _ _ _ _ _ H1).
    eexists (Thrown e), _. split; [reflexivity |]. simpl.
    split; [apply same_raw_refl |].
    split; [reflexivity |].
    split; [intros e' E; injection E as <-; auto | discriminate].
Qed.

End Pipeline.

(** ** The derived accessors *)

Lemma pipeline_runs_snoc (l : list Call) (c : Call) :
  pipeline_runs (l ++ [c])
  = (pipeline_runs l + (if is_simplifier_call c then 1 else 0))%nat.
Proof.
  unfold pipeline_runs. rewrite filter_app, length_app. simpl.
  destruct (is_simplifier_call c); reflexivity.
Qed.

Section Accessors.

Context {OP : Op.t} {SB : simplification_backend.t}
        {EB : evaluation_backend.t} {SG : string_generation.t}.

Lemma configured_simplifier_call_counts (g : AGraph) (c : ArrayX3i) :
  is_simplifier_call (configured_simplifier_call g c) = true.
Proof.
  unfold configured_simplifier_call. destruct (use_simplification_ g);
    reflexivity.
Qed.

Lemma refresh_outcome (m : Machine) :
  exists (r : outcome unit) (g' : AGraph) (l' : list Call),
    refresh m = (r, mkMachine g' l') /\
    same_raw (this m) g' /\
    (modified_ (this m) = false ->
       r = Returned tt /\ g' = this m /\ l' = log m) /\
    (modified_ (this m) = true ->
       l' = log m ++ [configured_simplifier_call (this m)
                        (command_array_ (this m))] /\
       modified_ g' = match r with
                      | Returned _ => false
                      | Thrown _ => true
                      end /\
       (forall e,
          configured_simplifier (this m) (command_array_ (this m)) = Thrown e ->
          r = Thrown e /\ g' = this m) /\
       (forall s,
          configured_simplifier (this m) (command_array_ (this m)) = Returned s ->
          fits_int s ->
          r = Returned tt /\
          simplified_command_array_ g' = fst (renumber_from s 0))).
Proof.
  unfold refresh, bind, self, when. simpl.
  destruct (modified_ (this m)) eqn:Hm.
  - destruct (update_outcome m) as (r & g' & E & Hraw & Hmod & Hthrow & Hret).
    exists r, g', (log m ++ [configured_simplifier_call (this m)
                               (command_array_ (this m))]).
    rewrite E. split; [reflexivity |]. split; [exact Hraw |].
    split; [discriminate |]. intros _.
    split; [reflexivity |]. split; [| split; assumption].
    rewrite Hmod, Hm. reflexivity.
  - exists (Returned tt), (this m), (log m).
    split; [destruct m; reflexivity |]. split; [apply same_raw_refl |].
    split; [auto | discriminate].
Qed.

(** An accessor that opens with the guard runs its body on the refreshed
    object, or fails as the refresh did. *)
Lemma guarded_eq {A : Type} (rest : M A) (m : Machine) (r : outcome unit)
    (m1 : Machine) :
  refresh m = (r, m1) ->
  (g <- self ;; when (modified_ g) update ;; rest) m
  = match r with
    | Returned _ => rest m1
    | Thrown e => (Thrown e, m1)
    end.
Proof.
  unfold refresh, bind, self. simpl. intros H. rewrite H.
  destruct r; reflexivity.
Qed.

Lemma reads_only_guarded {A : Type} (rest : M A) (m : Machine) :
  reads_only rest ->
  exists (r : outcome unit) (m1 : Machine),
    refresh m = (r, m1) /\
    this (snd ((g <- self ;; when (modified_ g) update ;; rest) m)) = this m1 /\
    pipeline_runs (log (snd ((g <- self ;; when (modified_ g) update ;; rest) m)))
    = pipeline_runs (log m1).
Proof.
  intros Hro. destruct (refresh m) as [r m1] eqn:E. exists r, m1.
  split; [reflexivity |]. rewrite (guarded_eq rest m r m1 E).
  destruct r; [apply Hro | split; reflexivity].
Qed.

Lemma snd_discard {A : Type} (c : M A) (m : Machine) :
  snd (discard c m) = snd (c m).
Proof.
  unfold discard, bind, ret. destruct (c m) as [[a | e] m']; reflexivity.
Qed.

Ltac reads_only_tac :=
  let m' := fresh "m" in
  intros m'; unfold bind, self, call, ret, try_catch; simpl;
  repeat match goal with
         | |- context [match ?x with Returned _ => _ | Thrown _ => _ end] =>
             destruct x as [? | []]; simpl
         end;
  rewrite ?pipeline_runs_snoc; simpl; rewrite ?Nat.add_0_r; split; reflexivity.

(** A derived accessor leaves the object as the guard left it and makes no
    simplifier call of its own. *)
Lemma exec_derived (o : Operation) (m : Machine) :
  is_derived_accessor o = true ->
  exists (r : outcome unit) (m1 : Machine),
    refresh m = (r, m1) /\
    this (exec o m) = this m1 /\
    pipeline_runs (log (exec o m)) = pipeline_runs (log m1).
Proof.
  intros Hd. unfold exec.
  destruct o; try discriminate Hd; simpl run_op;
    try (destruct raw; try discriminate Hd);
    rewrite snd_discard;
    unfold NeedsLocalOptimization, GetNumberLocalOptimizationParams,
      EvaluateEquationAt, EvaluateEquationWithXGradientAt,
      EvaluateEquationWithLocalOptGradientAt, GetConsoleString,
      GetFormattedString, GetComplexity;
    apply reads_only_guarded; reads_only_tac.
Qed.

(** Every other call: no simplifier runs, the configuration stays; the raw
    array and the staleness flag change through the raw writes only, the
    fitness and its flag through their setters and the notifying writes
    only. *)
Lemma exec_plain (o : Operation) (m : Machine) :
  is_derived_accessor o = false ->
  pipeline_runs (log (exec o m)) = pipeline_runs (log m) /\
  use_simplification_ (this (exec o m)) = use_simplification_ (this m) /\
  (is_raw_write o = false ->
     command_array_ (this (exec o m)) = command_array_ (this m)) /\
  (is_notifying_write o = false ->
     modified_ (this (exec o m)) = modified_ (this m)) /\
  (touches_fitness o = false ->
     fitness_ (this (exec o m)) = fitness_ (this m) /\
     fit_set_ (this (exec o m)) = fit_set_ (this m)).
Proof.
  intros Hd. unfold exec.
  destruct o; try discriminate Hd; simpl run_op;
    try (destruct raw; try discriminate Hd);
    rewrite ?snd_discard;
    unfold Copy, DumpState, GetCommandArray, GetCommandArrayModifiable,
      store_command_array, SetCommandArray, GetFitness, SetFitness,
      IsFitnessSet, SetFitnessStatus, SetGeneticAge, GetGeneticAge,
      GetUtilizedCommands, SetLocalOptimizationParams,
      GetLocalOptimizationParams, GetFormattedString, Distance,
      notify_agraph_modification, bind, self, assign, call, ret;
    simpl;
    repeat match goal with
           | |- context [if ?b then _ else _] => destruct b; simpl
           end;
    rewrite ?pipeline_runs_snoc; simpl; rewrite ?Nat.add_0_r;
    repeat split; try reflexivity; try discriminate.
Qed.

End Accessors.

(** ** The lazy update protocol *)

Section Laziness.

Context {OP : Op.t} {SB : simplification_backend.t}
        {EB : evaluation_backend.t} {SG : string_generation.t}.

Lemma raw_write_not_derived (o : Operation) :
  is_raw_write o = true -> is_derived_accessor o = false.
Proof. destruct o; simpl; congruence. Qed.

Lemma notifying_write_is_raw (o : Operation) :
  is_raw_write o = false -> is_notifying_write o = false.
Proof. destruct o; simpl; congruence. Qed.

(** One call on a fresh object, not a raw write: nothing is recomputed and
    the object stays fresh. *)
Lemma fresh_step (o : Operation) (m : Machine) :
  modified_ (this m) = false ->
  is_raw_write o = false ->
  pipeline_runs (log (exec o m)) = pipeline_runs (log m) /\
  modified_ (this (exec o m)) = false.
Proof.
  intros Hm Hw. destruct (is_derived_accessor o) eqn:Hd.
  - destruct (exec_derived o m Hd) as (r & m1 & E & Hthis & Hruns).
    destruct (refresh_outcome m) as (r' & g' & l' & E' & _ & Hfresh & _).
    destruct (Hfresh Hm) as (_ & -> & ->).
    rewrite E in E'. injection E' as _ ->.
    rewrite Hthis, Hruns. simpl. auto.
  - destruct (exec_plain o m Hd) as (Hruns & _ & _ & Hmod & _).
    rewrite Hruns, (Hmod (notifying_write_is_raw o Hw)). auto.
Qed.

Lemma fresh_run (ops : list Operation) :
  forall m : Machine,
    modified_ (this m) = false ->
    forallb (fun o => negb (is_raw_write o)) ops = true ->
    pipeline_runs (log (run_ops ops m)) = pipeline_runs (log m) /\
    modified_ (this (run_ops ops m)) = false.
Proof.
  induction ops as [|o ops IH]; intros m Hm Hw; simpl in *.
  - auto.
  - apply andb_true_iff in Hw as [Ho Hw]. apply negb_true_iff in Ho.
    destruct (fresh_step o m Hm Ho) as [Hruns Hm'].
    destruct (IH (exec o m) Hm' Hw) as [IHruns IHm].
    rewrite IHruns, Hruns. auto.
Qed.

(** One derived accessor on a stale object whose simplifier returns: one
    run of the pipeline, and the object is fresh. *)
Lemma stale_derived_step (o : Operation) (m : Machine) (s : ArrayX3i) :
  modified_ (this m) = true ->
  configured_simplifier (this m) (command_array_ (this m)) = Returned s ->
  fits_int s ->
  is_derived_accessor o = true ->
  pipeline_runs (log (exec o m)) = S (pipeline_runs (log m)) /\
  modified_ (this (exec o m)) = false /\
  simplified_command_array_ (this (exec o m)) = fst (renumber_from s 0).
Proof.
  intros Hm Hs Hfit Hd.
  destruct (exec_derived o m Hd) as (r & m1 & E & Hthis & Hruns).
  destruct (refresh_outcome m) as (r' & g' & l' & E' & _ & _ & Hstale).
  destruct (Hstale Hm) as (-> & Hmod & _ & Hret).
  destruct (Hret s Hs Hfit) as (-> & Hsimp).
  rewrite E in E'. injection E' as _ ->.
  rewrite Hthis, Hruns. simpl.
  rewrite pipeline_runs_snoc, configured_simplifier_call_counts.
  repeat split; [lia | exact Hmod | exact Hsimp].
Qed.

(** The count of pipeline runs from a stale object whose simplifier returns,
    over any sequence of calls without a raw write: one if the sequence
    holds a derived accessor, none otherwise; the object is fresh exactly
    when it does. A raw write, on any object, runs nothing. *)
Lemma pipeline_run_count (ops : list Operation) (m : Machine)
    (s : ArrayX3i) :
  modified_ (this m) = true ->
  configured_simplifier (this m) (command_array_ (this m)) = Returned s ->
  fits_int s ->
  forallb (fun o => negb (is_raw_write o)) ops = true ->
  pipeline_runs (log (run_ops ops m))
  = (pipeline_runs (log m)
     + (if existsb is_derived_accessor ops then 1 else 0))%nat /\
  modified_ (this (run_ops ops m)) = negb (existsb is_derived_accessor ops) /\
  (forall (w : Operation) (m0 : Machine),
     is_raw_write w = true ->
     pipeline_runs (log (exec w m0)) = pipeline_runs (log m0)).
Proof.
  intros Hm Hs Hfit Hw.
  split; [| split].
  3: { intros w m0 Hraw.
       apply (exec_plain w m0 (raw_write_not_derived w Hraw)). }
  all: revert m Hm Hs Hw;
    induction ops as [|o ops IH]; intros m Hm Hs Hw; simpl in *;
    [ first [lia | assumption] | ];
    apply andb_true_iff in Hw as [Ho Hw]; apply negb_true_iff in Ho;
    destruct (is_derived_accessor o) eqn:Hd; simpl.
  - destruct (stale_derived_step o m s Hm Hs Hfit Hd) as (Hruns & Hm' & _).
    destruct (fresh_run ops (exec o m) Hm' Hw) as [Hr _].
    rewrite Hr, Hruns. lia.
  - destruct (exec_plain o m Hd) as (Hruns & Hus & Hca & Hmod & _).
    rewrite IH; try assumption.
    + now rewrite Hruns.
    + now rewrite (Hmod (notifying_write_is_raw o Ho)).
    + unfold configured_simplifier in *. now rewrite Hus, (Hca Ho).
  - destruct (stale_derived_step o m s Hm Hs Hfit Hd) as (_ & Hm' & _).
    now destruct (fresh_run ops (exec o m) Hm' Hw) as [_ Hr].
  - destruct (exec_plain o m Hd) as (Hruns & Hus & Hca & Hmod & _).
    apply IH; try assumption.
    + now rewrite (Hmod (notifying_write_is_raw o Ho)).
    + unfold configured_simplifier in *. now rewrite Hus, (Hca Ho).
Qed.

End Laziness.

(** ** Fitness and its flag *)

Section Fitness.

Context {OP : Op.t} {SB : simplification_backend.t}
        {EB : evaluation_backend.t} {SG : string_generation.t}.

(** The two fitness fields across one call that is neither a setter nor a
    notifying write. *)
Lemma exec_keeps_fitness (o : Operation) (m : Machine) :
  touches_fitness o = false ->
  fitness_ (this (exec o m)) = fitness_ (this m) /\
  fit_set_ (this (exec o m)) = fit_set_ (this m).
Proof.
  intros Ht. destruct (is_derived_accessor o) eqn:Hd.
  - destruct (exec_derived o m Hd) as (r & m1 & E & Hthis & _).
    destruct (refresh_outcome m) as (r' & g' & l' & E' & Hraw & _).
    rewrite E in E'. injection E' as _ ->. rewrite Hthis. simpl.
    unfold same_raw in Hraw. tauto.
  - now apply (exec_plain o m Hd).
Qed.

Lemma exec_notifying_write (w : Operation) (m : Machine) :
  is_notifying_write w = true ->
  exec w m
  = mkMachine
      (set_modified_ true
         (set_fit_set_ false
            (set_fitness_ kFitnessNotSet
               (match w with
                | op_SetCommandArray c => set_command_array_ c (this m)
                | _ => this m
                end))))
      (log m).
Proof. destruct w; try discriminate; intros _; reflexivity. Qed.

Lemma discipline_step (o : Operation) (m : Machine) :
  keeps_sentinel_discipline o = true ->
  flag_tracks_sentinel (this m) ->
  flag_tracks_sentinel (this (exec o m)).
Proof.
  intros Hk Hinv. unfold flag_tracks_sentinel in *.
  destruct (touches_fitness o) eqn:Ht.
  - destruct o; try discriminate Ht; try discriminate Hk.
    + rewrite exec_notifying_write by reflexivity. reflexivity.
    + rewrite exec_notifying_write by reflexivity. reflexivity.
    + simpl in Hk. apply negb_true_iff in Hk. cbn. exact Hk.
  - destruct (exec_keeps_fitness o m Ht) as [-> ->]. exact Hinv.
Qed.

Lemma discipline_run (ops : list Operation) :
  forall m : Machine,
    forallb keeps_sentinel_discipline ops = true ->
    flag_tracks_sentinel (this m) ->
    flag_tracks_sentinel (this (run_ops ops m)).
Proof.
  induction ops as [|o ops IH]; intros m Hk Hinv; simpl in *.
  - exact Hinv.
  - apply andb_true_iff in Hk as [Ho Hk].
    apply IH; [exact Hk |]. now apply discipline_step.
Qed.

(** C9, as the code has it: the sentinel is the double 1e9. From
    construction, over any sequence of calls in which [SetFitness] is never
    given a value equal to 1e9 and [SetFitnessStatus] is not used,
    [GetFitness] returns a value equal to the sentinel exactly when
    [IsFitnessSet] returns false. *)
Theorem fitness_sentinel_iff_flag_unset (ops : list Operation)
    (use_simplification : bool) :
  forallb keeps_sentinel_discipline ops = true ->
  exists (f : float) (b : bool),
    fst (GetFitness (run_ops ops (fresh_machine use_simplification)))
    = Returned f /\
    fst (IsFitnessSet (run_ops ops (fresh_machine use_simplification)))
    = Returned b /\
    (double_eq f kFitnessNotSet = true <-> b = false).
Proof.
  intros Hk.
  assert (H0 : flag_tracks_sentinel (this (fresh_machine use_simplification)))
    by reflexivity.
  pose proof (discipline_run ops (fresh_machine use_simplification) Hk H0)
    as H.
  unfold flag_tracks_sentinel in H.
  exists (fitness_ (this (run_ops ops (fresh_machine use_simplification)))),
    (fit_set_ (this (run_ops ops (fresh_machine use_simplification)))).
  split; [reflexivity |]. split; [reflexivity |].
  rewrite H. apply negb_true_iff.
Qed.





Lemma EvaluateEquationAt_eq (x : ArrayXXd) (m m1 : Machine)
    (r : outcome unit) :
  refresh m = (r, m1) ->
  EvaluateEquationAt x m
  = match r with
    | Returned _ =>
        (nan_on_distress (Constant (rows x) (cols x) kNaN)
           (evaluation_backend.Evaluate (simplified_command_array_ (this m1))
              x (simplified_constants_ (this m1))),
         mkMachine (this m1)
           (log m1 ++ [call_Evaluate (simplified_command_array_ (this m1))
                         x (simplified_constants_ (this m1))]))
    | Thrown e => (Thrown e, m1)
    end.
Proof.
  intros H. unfold EvaluateEquationAt.
  rewrite (guarded_eq _ m r m1 H). destruct r; [| reflexivity].
  unfold try_catch, bind, self, call, ret. simpl.
  destruct (evaluation_backend.Evaluate _ _ _) as [f | []]; reflexivity.
Qed.


End Fitness.

(** ** Evaluation and its numeric failure policy *)

Lemma Constant_all_nan (r c : nat) : all_nan (Constant r c kNaN).
Proof.
  unfold all_nan, Constant. simpl. apply Forall_forall. intros col Hcol.
  apply repeat_spec in Hcol. subst col. apply Forall_forall.
  intros v Hv. apply repeat_spec in Hv. subst v. reflexivity.
Qed.

Lemma Constant_well_shaped (r c : nat) (v : float) :
  well_shaped (Constant r c v).
Proof.
  unfold well_shaped, Constant. simpl. apply Forall_forall. intros col Hcol.
  apply repeat_spec in Hcol. subst col. apply repeat_length.
Qed.

Lemma Constant_cols (r c : nat) (v : float) : cols (Constant r c v) = c.
Proof. unfold cols, Constant. simpl. apply repeat_length. Qed.

Section Evaluation.

Context {OP : Op.t} {SB : simplification_backend.t}
        {EB : evaluation_backend.t} {SG : string_generation.t}.

Lemma EvaluateEquationWithXGradientAt_eq (x : ArrayXXd) (m m1 : Machine)
    (r : outcome unit) :
  refresh m = (r, m1) ->
  EvaluateEquationWithXGradientAt x m
  = match r with
    | Returned _ =>
        (nan_on_distress
           (Constant (rows x) (cols x) kNaN, Constant (rows x) (cols x) kNaN)
           (evaluation_backend.EvaluateWithDerivative
              (simplified_command_array_ (this m1)) x
              (simplified_constants_ (this m1)) true),
         mkMachine (this m1)
           (log m1 ++ [call_EvaluateWithDerivative
                         (simplified_command_array_ (this m1)) x
                         (simplified_constants_ (this m1)) true]))
    | Thrown e => (Thrown e, m1)
    end.
Proof.
  intros H. unfold EvaluateEquationWithXGradientAt.
  rewrite (guarded_eq _ m r m1 H). destruct r; [| reflexivity].
  unfold try_catch, bind, self, call, ret. simpl.
  destruct (evaluation_backend.EvaluateWithDerivative _ _ _ _) as [f | []];
    reflexivity.
Qed.

Lemma EvaluateEquationWithLocalOptGradientAt_eq (x : ArrayXXd)
    (m m1 : Machine) (r : outcome unit) :
  refresh m = (r, m1) ->
  EvaluateEquationWithLocalOptGradientAt x m
  = match r with
    | Returned _ =>
        (nan_on_distress
           (Constant (rows x) (cols x) kNaN, Constant (rows x) (cols x) kNaN)
           (evaluation_backend.EvaluateWithDerivative
              (simplified_command_array_ (this m1)) x
              (simplified_constants_ (this m1)) false),
         mkMachine (this m1)
           (log m1 ++ [call_EvaluateWithDerivative
                         (simplified_command_array_ (this m1)) x
                         (simplified_constants_ (this m1)) false]))
    | Thrown e => (Thrown e, m1)
    end.
Proof.
  intros H. unfold EvaluateEquationWithLocalOptGradientAt.
  rewrite (guarded_eq _ m r m1 H). destruct r; [| reflexivity].
  unfold try_catch, bind, self, call, ret. simpl.
  destruct (evaluation_backend.EvaluateWithDerivative _ _ _ _) as [f | []];
    reflexivity.
Qed.

(** C1, as the code has it: once the guard has refreshed the object,
    [EvaluateEquationAt] makes one call to the backend; if that call raises
    an overflow or an underflow the result is an array of NaN with the shape
    of the input batch [x] ([x.rows()] by [x.cols()]), which is one value
    per sample exactly when [x] has one column; if the call returns, its
    result is returned unchanged; any other exception propagates. *)
Theorem EvaluateEquationAt_nan_on_numeric_failure (x : ArrayXXd)
    (m m1 : Machine) :
  refresh m = (Returned tt, m1) ->
  let stack := simplified_command_array_ (this m1) in
  let constants := simplified_constants_ (this m1) in
  let nan_array := Constant (rows x) (cols x) kNaN in
  EvaluateEquationAt x m
  = (match evaluation_backend.Evaluate stack x constants with
     | Thrown underflow_error | Thrown overflow_error => Returned nan_array
     | Returned f_of_x => Returned f_of_x
     | Thrown e => Thrown e
     end,
     mkMachine (this m1) (log m1 ++ [call_Evaluate stack x constants])) /\
  all_nan nan_array /\
  well_shaped nan_array /\
  rows nan_array = rows x /\
  cols nan_array = cols x /\
  (cols nan_array = 1%nat <-> cols x = 1%nat).
Proof.
  intros H. cbv zeta. rewrite (EvaluateEquationAt_eq x m m1 _ H).
  split; [| split; [| split; [| split; [| split]]]].
  - unfold nan_on_distress.
    destruct (evaluation_backend.Evaluate _ _ _) as [f | []]; reflexivity.
  - apply Constant_all_nan.
  - apply Constant_well_shaped.
  - reflexivity.
  - apply Constant_cols.
  - now rewrite Constant_cols.
Qed.

(** C2, as the code has it: once the guard has refreshed the object, each
    derivative entry point ([param_x_or_c] true for
    [EvaluateEquationWithXGradientAt], false for
    [EvaluateEquationWithLocalOptGradientAt]) makes one call to the backend;
    if that call raises an overflow or an underflow the result is the pair
    of one NaN array with itself, of the shape of the input batch [x]
    ([x.rows()] by [x.cols()]) for the value and for the derivative alike;
    if the call returns, its result is returned unchanged. *)
Theorem derivative_entry_points_nan_on_numeric_failure (param_x_or_c : bool)
    (x : ArrayXXd) (m m1 : Machine) :
  refresh m = (Returned tt, m1) ->
  let stack := simplified_command_array_ (this m1) in
  let constants := simplified_constants_ (this m1) in
  let nan_array := Constant (rows x) (cols x) kNaN in
  (if param_x_or_c then EvaluateEquationWithXGradientAt x m
   else EvaluateEquationWithLocalOptGradientAt x m)
  = (match evaluation_backend.EvaluateWithDerivative stack x constants
             param_x_or_c with
     | Thrown underflow_error | Thrown overflow_error =>
         Returned (nan_array, nan_array)
     | Returned df => Returned df
     | Thrown e => Thrown e
     end,
     mkMachine (this m1)
       (log m1 ++ [call_EvaluateWithDerivative stack x constants
                     param_x_or_c])) /\
  all_nan nan_array /\
  well_shaped nan_array /\
  rows nan_array = rows x /\
  cols nan_array = cols x.
Proof.
  intros H. cbv zeta.
  split; [| split; [| split; [| split]]].
  - destruct param_x_or_c.
    + rewrite (EvaluateEquationWithXGradientAt_eq x m m1 _ H).
      unfold nan_on_distress.
      destruct (evaluation_backend.EvaluateWithDerivative _ _ _ _)
        as [f | []]; reflexivity.
    + rewrite (EvaluateEquationWithLocalOptGradientAt_eq x m m1 _ H).
      unfold nan_on_distress.
      destruct (evaluation_backend.EvaluateWithDerivative _ _ _ _)
        as [f | []]; reflexivity.
  - apply Constant_all_nan.
  - apply Constant_well_shaped.
  - reflexivity.
  - apply Constant_cols.
Qed.

(** A derived accessor fails as its guard does. *)
Lemma run_op_derived_Thrown (o : Operation) (m m1 : Machine) (e : exn) :
  is_derived_accessor o = true ->
  refresh m = (Thrown e, m1) ->
  run_op o m = (Thrown e, m1).
Proof.
  intros Hd H.
  destruct o; try discriminate Hd; simpl run_op;
    try (destruct raw; try discriminate Hd);
    unfold discard; apply bind_Thrown;
    unfold NeedsLocalOptimization, GetNumberLocalOptimizationParams,
      EvaluateEquationAt, EvaluateEquationWithXGradientAt,
      EvaluateEquationWithLocalOptGradientAt, GetConsoleString,
      GetFormattedString, GetComplexity;
    now rewrite (guarded_eq _ m _ m1 H).
Qed.

(** C3, as the code has it: on a stale object configured with the external
    simplifier, an exception of that simplifier leaves every derived
    accessor through the accessor itself; the one call made is the call to
    the external simplifier, the local one is not called, and no field of
    the object has changed (it is still stale, so the next derived accessor
    calls the external simplifier again). *)
Theorem oracle_failure_propagates (o : Operation) (m : Machine) (e : exn) :
  use_simplification_ (this m) = true ->
  modified_ (this m) = true ->
  simplification_backend.PythonSimplifyStack (command_array_ (this m))
  = Thrown e ->
  is_derived_accessor o = true ->
  run_op o m
  = (Thrown e,
     mkMachine (this m)
       (log m ++ [call_PythonSimplifyStack (command_array_ (this m))])).
Proof.
  intros Hu Hm He Hd.
  destruct (refresh_outcome m) as (r & g' & l' & E & _ & _ & Hstale).
  destruct (Hstale Hm) as (-> & _ & Hthrow & _).
  unfold configured_simplifier, configured_simplifier_call in *.
  rewrite Hu in *. destruct (Hthrow e He) as [-> ->].
  now apply run_op_derived_Thrown.
Qed.

(** C10: [GetUtilizedCommands] returns what the liveness analysis of the
    backend returns on the raw command array; it assigns no field (a stale
    object stays stale, the caches and the fitness are as before), makes
    that one call and no call to a simplifier, and its result depends on no
    field but the raw array. *)
Theorem GetUtilizedCommands_reads_raw_only (m : Machine) :
  GetUtilizedCommands m
  = (simplification_backend.GetUtilizedCommands (command_array_ (this m)),
     mkMachine (this m)
       (log m ++ [call_GetUtilizedCommands (command_array_ (this m))])) /\
  this (exec op_GetUtilizedCommands m) = this m /\
  pipeline_runs (log (exec op_GetUtilizedCommands m)) = pipeline_runs (log m) /\
  (forall m' : Machine,
     command_array_ (this m') = command_array_ (this m) ->
     fst (GetUtilizedCommands m') = fst (GetUtilizedCommands m)).
Proof.
  split; [reflexivity |]. split; [| split].
  - unfold exec. simpl run_op. rewrite snd_discard. reflexivity.
  - unfold exec. simpl run_op. rewrite snd_discard. simpl.
    rewrite pipeline_runs_snoc. simpl. lia.
  - intros m' H. unfold GetUtilizedCommands, bind, self, call. simpl.
    now rewrite H.
Qed.

End Evaluation.

(** ** Structural distance *)

Lemma length_filter_map {A B : Type} (f : A -> B) (p : B -> bool)
    (l : list A) :
  List.length (filter p (map f l))
  = List.length (filter (fun a => p (f a)) l).
Proof.
  induction l as [|a l IH]; simpl; [reflexivity |].
  destruct (p (f a)); simpl; now rewrite IH.
Qed.

Lemma list_prod_shift {B : Type} (n : nat) (l : list B) :
  list_prod (seq 1 n) l
  = map (fun p => (S (fst p), snd p)) (list_prod (seq 0 n) l).
Proof.
  rewrite <- seq_shift. generalize (seq 0 n) as idx.
  induction idx as [|i idx IH]; simpl; [reflexivity |].
  rewrite map_app, map_map, IH. reflexivity.
Qed.

Lemma count_cons (r : list bool) (m : list (list bool)) :
  count (r :: m) = (List.length (filter (fun b => b) r) + count m)%nat.
Proof. unfold count. simpl. now rewrite filter_app, length_app. Qed.

Lemma row_ne_count (r s : Row) (a b : ArrayX3i) :
  List.length (filter (fun b => b) (row_ne r s))
  = List.length
      (filter (fun p => negb (coeff3 (r :: a) (fst p) (snd p)
                              =? coeff3 (s :: b) (fst p) (snd p)))
              (map (pair 0%nat)
                   [kOpIdx; kFirstArgumentIndex; kSecondArgumentIndex])).
Proof.
  unfold row_ne, coeff3. simpl.
  destruct (negb (row_coeff r kOpIdx =? row_coeff s kOpIdx));
    destruct (negb (row_coeff r kFirstArgumentIndex
                    =? row_coeff s kFirstArgumentIndex));
    destruct (negb (row_coeff r kSecondArgumentIndex
                    =? row_coeff s kSecondArgumentIndex));
    reflexivity.
Qed.

(** The count of the coefficient-wise comparison is the number of differing
    positions. *)
Lemma count_cwise_ne (a : ArrayX3i) :
  forall b : ArrayX3i,
    List.length a = List.length b ->
    count (cwise_ne a b) = List.length (differing_fields a b).
Proof.
  induction a as [|r a IH]; intros [|s b] Hlen; try discriminate Hlen.
  - reflexivity.
  - injection Hlen as Hlen. unfold cwise_ne. simpl combine. simpl map.
    fold (cwise_ne a b). rewrite count_cons, (IH b Hlen).
    rewrite (row_ne_count r s a b).
    unfold differing_fields.
    assert (E : list_prod (seq 0 (List.length (r :: a)))
                  [kOpIdx; kFirstArgumentIndex; kSecondArgumentIndex]
                = map (pair 0%nat)
                    [kOpIdx; kFirstArgumentIndex; kSecondArgumentIndex]
                  ++ map (fun p => (S (fst p), snd p))
                       (list_prod (seq 0 (List.length a))
                          [kOpIdx; kFirstArgumentIndex; kSecondArgumentIndex])).
    { rewrite <- list_prod_shift. reflexivity. }
    rewrite E, filter_app, length_app, !length_filter_map. reflexivity.
Qed.

Lemma row_ne_sym (r s : Row) : row_ne r s = row_ne s r.
Proof.
  unfold row_ne. simpl. now rewrite !(Z.eqb_sym (row_coeff r _)).
Qed.

Lemma cwise_ne_sym (a : ArrayX3i) :
  forall b : ArrayX3i, cwise_ne a b = cwise_ne b a.
Proof.
  induction a as [|r a IH]; intros [|s b]; try reflexivity.
  unfold cwise_ne in *. simpl. now rewrite row_ne_sym, IH.
Qed.

Lemma count_cwise_ne_refl (a : ArrayX3i) : count (cwise_ne a a) = 0%nat.
Proof.
  induction a as [|r a IH]; [reflexivity |].
  unfold cwise_ne in *. simpl map. rewrite count_cons, IH.
  unfold row_ne. simpl. now rewrite !Z.eqb_refl.
Qed.

Lemma differing_rows_cons (r s : Row) (a b : ArrayX3i) :
  List.length (differing_rows (r :: a) (s :: b))
  = ((if row_eqb r s then 0 else 1) + List.length (differing_rows a b))%nat.
Proof.
  unfold differing_rows. cbn [List.length seq filter nth].
  rewrite <- seq_shift.
  destruct (row_eqb r s); cbn [negb List.length];
    rewrite length_filter_map; reflexivity.
Qed.

(** A differing row differs in one, two or three fields. *)
Lemma differing_rows_bounds (a : ArrayX3i) :
  forall b : ArrayX3i,
    List.length a = List.length b ->
    (List.length (differing_rows a b) <= count (cwise_ne a b)
     <= 3 * List.length (differing_rows a b))%nat.
Proof.
  induction a as [|r a IH]; intros [|s b] Hlen; try discriminate Hlen.
  - simpl. unfold count. simpl. lia.
  - injection Hlen as Hlen. specialize (IH b Hlen).
    unfold cwise_ne. simpl combine. simpl map. fold (cwise_ne a b).
    rewrite count_cons, differing_rows_cons.
    unfold row_eqb, row_ne. simpl map.
    destruct (row_coeff r kOpIdx =? row_coeff s kOpIdx);
      destruct (row_coeff r kFirstArgumentIndex
                =? row_coeff s kFirstArgumentIndex);
      destruct (row_coeff r kSecondArgumentIndex
                =? row_coeff s kSecondArgumentIndex);
      simpl; lia.
Qed.

(** C8, as the code has it: for two objects whose raw arrays have the same
    number of rows (three times which an [int] can hold), [Distance] is the
    number of positions, row and field, at which the raw arrays hold
    different coefficients: a row that differs counts once for each of its
    fields that differs, so the distance lies between the number of
    differing rows and three times it. The distance is computed on the raw
    arrays and changes nothing; it is the same in both directions, and it
    is 0 from an object to itself. *)
Theorem Distance_counts_differing_fields (m : Machine) (agraph : AGraph) :
  List.length (command_array_ (this m)) = List.length (command_array_ agraph) ->
  3 * Z.of_nat (List.length (command_array_ (this m))) <= INT_MAX ->
  Distance agraph m
  = (Returned (Z.of_nat (List.length
                 (differing_fields (command_array_ (this m))
                                   (command_array_ agraph)))),
     m) /\
  (List.length (differing_rows (command_array_ (this m)) (command_array_ agraph))
   <= List.length (differing_fields (command_array_ (this m))
                                    (command_array_ agraph))
   <= 3 * List.length (differing_rows (command_array_ (this m))
                                      (command_array_ agraph)))%nat /\
  fst (Distance agraph m) = fst (Distance (this m) (mkMachine agraph (log m))) /\
  Distance (this m) m = (Returned 0, m).
Proof.
  intros Hlen Hfit.
  pose proof (count_cwise_ne _ _ Hlen) as Hc.
  pose proof (differing_rows_bounds _ _ Hlen) as Hb.
  assert (Hrows : (List.length (differing_rows (command_array_ (this m))
                                  (command_array_ agraph))
                   <= List.length (command_array_ (this m)))%nat).
  { unfold differing_rows.
    etransitivity; [apply filter_length_le | now rewrite length_seq]. }
  split; [| split; [| split]].
  - unfold Distance, bind, self, ret. simpl.
    rewrite Hlen, Nat.eqb_refl, <- Hc, wrap32_small; [reflexivity |].
    unfold INT_MAX in *. lia.
  - now rewrite <- Hc.
  - unfold Distance, bind, self, ret. simpl.
    rewrite Hlen, Nat.eqb_refl, cwise_ne_sym. reflexivity.
  - unfold Distance, bind, self, ret. simpl.
    rewrite Nat.eqb_refl, count_cwise_ne_refl. reflexivity.
Qed.

(** * Worked instances *)

(** The loop on [sample_stack]: the two constants get 0 and 1. *)
Example renumber_from_sample :
  renumber_from (OP := sample_Op) sample_stack 0
  = ([(1, 0, 0); (0, 0, 0); (1, 1, 1); (2, 0, 1)], 2).
Proof. reflexivity. Qed.

(** Three constants and a new count of two: the first two stay, the flag
    stays down. *)
Example resize_three_to_two :
  resizeConstantsArrayIfNeeded 2
    (mkMachine
       (set_simplified_constants_
          (mkArrayXXd 3 [[5; 6; 7]%float]) (AGraph_new false))
       [])
  = (Returned tt,
     mkMachine
       (set_simplified_constants_
          (mkArrayXXd 2 [[5; 6]%float]) (AGraph_new false))
       []).
Proof. reflexivity. Qed.

(** Two constants and a new count of five: five ones, the flag goes up. *)
Example resize_two_to_five :
  resizeConstantsArrayIfNeeded 5
    (mkMachine
       (set_simplified_constants_
          (mkArrayXXd 2 [[5; 6]%float]) (AGraph_new false))
       [])
  = (Returned tt,
     mkMachine
       (set_needs_opt_ true
          (set_simplified_constants_
             (mkArrayXXd 5 [[1; 1; 1; 1; 1]%float]) (AGraph_new false)))
       []).
Proof. reflexivity. Qed.

(** A variable alone, written as the raw array: complexity 1. *)
Example single_variable_complexity :
  fst (GetComplexity (OP := sample_Op) (SB := sample_simplification)
         (snd (SetCommandArray [(0, 0, 0)] (fresh_machine false))))
  = Returned 1.
Proof. reflexivity. Qed.

Lemma sample_stack_fits : fits_int sample_stack.
Proof. unfold fits_int, INT_MAX. simpl. lia. Qed.

Lemma one_row_fits : 3 * Z.of_nat 1 <= INT_MAX.
Proof. unfold INT_MAX. lia. Qed.

(** On [sample_sum] with an evaluator that overflows, a batch of one sample
    with two features comes back as a 1 by 2 array of NaN. *)
Lemma EvaluateEquationAt_nan_witness :
  fst (EvaluateEquationAt (OP := sample_Op) (SB := sample_simplification)
         (EB := overflowing_evaluation) sample_x sample_sum)
  = Returned (Constant 1 2 kNaN).
Proof.
  exact (f_equal fst
           (proj1 (EvaluateEquationAt_nan_on_numeric_failure
                     (OP := sample_Op) (SB := sample_simplification)
                     (EB := overflowing_evaluation)
                     sample_x sample_sum sample_sum eq_refl))).
Defined.

(** The claimed shape fails there: the evaluation overflows, the NaN array
    holds two values for the one sample, where the evaluation that succeeds
    holds one. *)
Lemma EvaluateEquationAt_nan_shape_counterexample :
  evaluation_backend.Evaluate (t := overflowing_evaluation)
    (simplified_command_array_ (this sample_sum)) sample_x
    (simplified_constants_ (this sample_sum))
  = Thrown overflow_error /\
  fst (EvaluateEquationAt (OP := sample_Op) (SB := sample_simplification)
         (EB := overflowing_evaluation) sample_x sample_sum)
  = Returned (mkArrayXXd 1 [[kNaN]; [kNaN]]) /\
  fst (EvaluateEquationAt (OP := sample_Op) (SB := sample_simplification)
         (EB := shaped_evaluation) sample_x sample_sum)
  = Returned (mkArrayXXd 1 [[1%float]]) /\
  rows sample_x = 1%nat /\
  cols (mkArrayXXd 1 [[kNaN]; [kNaN]]) = 2%nat /\
  cols (mkArrayXXd 1 [[kNaN]; [kNaN]]) <> cols (mkArrayXXd 1 [[1%float]]).
Proof.
  repeat split; try reflexivity. discriminate.
Qed.

(** The same for the derivative with respect to the constants. *)
Lemma derivative_nan_witness :
  fst (EvaluateEquationWithLocalOptGradientAt (OP := sample_Op)
         (SB := sample_simplification) (EB := overflowing_evaluation)
         sample_x sample_sum)
  = Returned (Constant 1 2 kNaN, Constant 1 2 kNaN).
Proof.
  exact (f_equal fst
           (proj1 (derivative_entry_points_nan_on_numeric_failure
                     (OP := sample_Op) (SB := sample_simplification)
                     (EB := overflowing_evaluation)
                     false sample_x sample_sum sample_sum eq_refl))).
Defined.

(** The claimed shapes fail there: with one constant and two features, the
    value comes back 1 by 2 where a successful call gives 1 by 1, from both
    entry points, and the derivative with respect to the constant comes back
    1 by 2 where a successful call gives 1 by 1. *)
Lemma derivative_nan_shape_counterexample :
  evaluation_backend.EvaluateWithDerivative (t := overflowing_evaluation)
    (simplified_command_array_ (this sample_sum)) sample_x
    (simplified_constants_ (this sample_sum)) false
  = Thrown overflow_error /\
  fst (EvaluateEquationWithLocalOptGradientAt (OP := sample_Op)
         (SB := sample_simplification) (EB := overflowing_evaluation)
         sample_x sample_sum)
  = Returned (mkArrayXXd 1 [[kNaN]; [kNaN]], mkArrayXXd 1 [[kNaN]; [kNaN]]) /\
  fst (EvaluateEquationWithLocalOptGradientAt (OP := sample_Op)
         (SB := sample_simplification) (EB := shaped_evaluation)
         sample_x sample_sum)
  = Returned (mkArrayXXd 1 [[1%float]], mkArrayXXd 1 [[0%float]]) /\
  fst (EvaluateEquationWithXGradientAt (OP := sample_Op)
         (SB := sample_simplification) (EB := overflowing_evaluation)
         sample_x sample_sum)
  = Returned (mkArrayXXd 1 [[kNaN]; [kNaN]], mkArrayXXd 1 [[kNaN]; [kNaN]]) /\
  fst (EvaluateEquationWithXGradientAt (OP := sample_Op)
         (SB := sample_simplification) (EB := shaped_evaluation)
         sample_x sample_sum)
  = Returned (mkArrayXXd 1 [[1%float]],
              mkArrayXXd 1 [[0%float]; [0%float]]) /\
  cols (mkArrayXXd 1 [[kNaN]; [kNaN]]) <> cols (mkArrayXXd 1 [[1%float]]) /\
  cols (mkArrayXXd 1 [[kNaN]; [kNaN]]) <> cols (mkArrayXXd 1 [[0%float]]).
Proof.
  repeat split; try reflexivity; discriminate.
Qed.

(** With the external simplifier unavailable, [GetComplexity] on a stale
    object throws. *)
Lemma oracle_failure_witness :
  run_op (OP := sample_Op) (SB := sample_simplification)
    (EB := shaped_evaluation) (SG := sample_strings)
    op_GetComplexity (sample_stale true)
  = (Thrown other_exception,
     mkMachine (this (sample_stale true))
       [call_PythonSimplifyStack sample_stack]).
Proof.
  exact (oracle_failure_propagates
           (OP := sample_Op) (SB := sample_simplification)
           (EB := shaped_evaluation) (SG := sample_strings)
           op_GetComplexity (sample_stale true) other_exception
           eq_refl eq_refl eq_refl eq_refl).
Defined.

(** No fallback: the local simplifier would have returned, the external one
    fails, and the accessor throws with the local simplifier never called
    and the simplified array never computed. *)
Lemma oracle_failure_counterexample :
  simplification_backend.SimplifyStack (t := sample_simplification)
    sample_stack = Returned sample_stack /\
  simplification_backend.PythonSimplifyStack (t := sample_simplification)
    sample_stack = Thrown other_exception /\
  fst (GetComplexity (OP := sample_Op) (SB := sample_simplification)
         (sample_stale true))
  = Thrown other_exception /\
  log (snd (GetComplexity (OP := sample_Op) (SB := sample_simplification)
              (sample_stale true)))
  = [call_PythonSimplifyStack sample_stack] /\
  simplified_command_array_
    (this (snd (GetComplexity (OP := sample_Op) (SB := sample_simplification)
                  (sample_stale true))))
  = [].
Proof. repeat split; reflexivity. Qed.



(** Renumbering [sample_stack]: two constants, numbered 0 and 1. *)
Lemma countAndUpdateConstants_witness :
  exists stack' : ArrayX3i,
    countAndUpdateConstants (OP := sample_Op)
      (mkMachine (set_simplified_command_array_ sample_stack (AGraph_new false))
                 [])
    = (Returned 2,
       mkMachine (set_simplified_command_array_ stack' (AGraph_new false)) []) /\
    map arg1 (constant_rows (OP := sample_Op) stack') = [0; 1] /\
    map arg2 (constant_rows (OP := sample_Op) stack') = [0; 1].
Proof.
  destruct (countAndUpdateConstants_renumbers (OP := sample_Op)
              (mkMachine
                 (set_simplified_command_array_ sample_stack (AGraph_new false))
                 [])
              sample_stack_fits)
    as (stack' & H & _ & _ & _ & H1 & H2).
  exists stack'. exact (conj H (conj H1 H2)).
Defined.

(** One row differing in its three fields: distance 3. *)
Lemma Distance_witness :
  Distance sample_right (mkMachine sample_left [])
  = (Returned 3, mkMachine sample_left []).
Proof.
  exact (proj1 (Distance_counts_differing_fields
                  (mkMachine sample_left []) sample_right
                  eq_refl one_row_fits)).
Defined.

(** The distance is not the number of differing rows: one row differs, the
    distance is 3. *)
Lemma Distance_row_count_counterexample :
  fst (Distance sample_right (mkMachine sample_left [])) = Returned 3 /\
  List.length (differing_rows (command_array_ sample_left)
                              (command_array_ sample_right)) = 1%nat /\
  3 <> Z.of_nat (List.length (differing_rows (command_array_ sample_left)
                                             (command_array_ sample_right))).
Proof. repeat split; try reflexivity. discriminate. Qed.

(** A run that keeps the discipline. *)
Lemma fitness_sentinel_witness :
  exists (f : float) (b : bool),
    fst (GetFitness
           (run_ops (OP := sample_Op) (SB := sample_simplification)
              (EB := shaped_evaluation) (SG := sample_strings)
              [op_SetFitness 0.5%float; op_SetCommandArray sample_stack;
               op_GetComplexity; op_SetFitness 2%float]
              (fresh_machine false)))
    = Returned f /\
    fst (IsFitnessSet
           (run_ops (OP := sample_Op) (SB := sample_simplification)
              (EB := shaped_evaluation) (SG := sample_strings)
              [op_SetFitness 0.5%float; op_SetCommandArray sample_stack;
               op_GetComplexity; op_SetFitness 2%float]
              (fresh_machine false)))
    = Returned b /\
    (double_eq f kFitnessNotSet = true <-> b = false).
Proof.
  exact (fitness_sentinel_iff_flag_unset
           (OP := sample_Op) (SB := sample_simplification)
           (EB := shaped_evaluation) (SG := sample_strings)
           [op_SetFitness 0.5%float; op_SetCommandArray sample_stack;
            op_GetComplexity; op_SetFitness 2%float]
           false eq_refl).
Defined.

(** The sentinel is an ordinary value: [SetFitness(1e9)] leaves a set
    fitness that reads as the sentinel; and the bare flag setter leaves the
    flag down over a fitness that is not the sentinel. *)
Lemma SetFitness_sentinel_counterexample :
  fst (GetFitness
         (run_ops (OP := sample_Op) (SB := sample_simplification)
            (EB := shaped_evaluation) (SG := sample_strings)
            [op_SetFitness 1e9%float] (fresh_machine false)))
  = Returned kFitnessNotSet /\
  fst (IsFitnessSet
         (run_ops (OP := sample_Op) (SB := sample_simplification)
            (EB := shaped_evaluation) (SG := sample_strings)
            [op_SetFitness 1e9%float] (fresh_machine false)))
  = Returned true /\
  fst (GetFitness
         (run_ops (OP := sample_Op) (SB := sample_simplification)
            (EB := shaped_evaluation) (SG := sample_strings)
            [op_SetFitness 0.5%float; op_SetFitnessStatus false]
            (fresh_machine false)))
  = Returned 0.5%float /\
  double_eq 0.5%float kFitnessNotSet = false /\
  fst (IsFitnessSet
         (run_ops (OP := sample_Op) (SB := sample_simplification)
            (EB := shaped_evaluation) (SG := sample_strings)
            [op_SetFitness 0.5%float; op_SetFitnessStatus false]
            (fresh_machine false)))
  = Returned false.
Proof. repeat split; reflexivity. Qed.

(** * Further properties of the class *)

(** ** The pipeline, step by step *)

Lemma conservativeResize_rows_all (a : ArrayXXd) :
  well_shaped a -> conservativeResize_rows a (rows a) = a.
Proof.
  destruct a as [r cs]. unfold well_shaped, conservativeResize_rows. simpl.
  intros H. f_equal. induction H as [|c cs Hc _ IH]; simpl; [reflexivity |].
  rewrite IH. f_equal. rewrite <- Hc. apply firstn_all.
Qed.

Lemma rows_reconciled_constants (c : ArrayXXd) (k : nat) :
  rows (reconciled_constants c k) = k.
Proof.
  unfold reconciled_constants. destruct (k <=? rows c)%nat; reflexivity.
Qed.

Section PipelineSteps.

Context {OP : Op.t} {SB : simplification_backend.t}
        {EB : evaluation_backend.t} {SG : string_generation.t}.

Lemma resizeConstantsArrayIfNeeded_eq (k : nat) (m : Machine) :
  resizeConstantsArrayIfNeeded (Z.of_nat k) m
  = (Returned tt,
     mkMachine
       (set_needs_opt_
          (reconciled_needs_opt (simplified_constants_ (this m))
             (needs_opt_ (this m)) k)
          (set_simplified_constants_
             (reconciled_constants (simplified_constants_ (this m)) k)
             (this m)))
       (log m)).
Proof.
  destruct m as [g l]. destruct g as [ca sca sc no fi fs ga mo us].
  unfold resizeConstantsArrayIfNeeded, performDefaultConstantResize,
    eigen_size, reconciled_constants, reconciled_needs_opt,
    bind, self, assign, when, ret. simpl.
  assert (Hneg : (Z.of_nat k <? 0) = false) by (apply Z.ltb_ge; lia).
  destruct (k <=? rows sc)%nat eqn:Hk.
  - apply Nat.leb_le in Hk.
    assert (Hz : (Z.of_nat k <=? Z.of_nat (rows sc)) = true)
      by (apply Z.leb_le; lia).
    rewrite Hz, Hneg, Nat2Z.id. reflexivity.
  - apply Nat.leb_gt in Hk.
    assert (Hz : (Z.of_nat k <=? Z.of_nat (rows sc)) = false)
      by (apply Z.leb_gt; lia).
    assert (Hpos : (Z.of_nat k >? 0) = true) by (apply Z.gtb_lt; lia).
    rewrite Hz, Hneg, Hpos, Nat2Z.id. reflexivity.
Qed.

Lemma renumber_from_count (s : ArrayX3i) :
  fits_int s ->
  snd (renumber_from s 0) = Z.of_nat (count_constants s) /\
  List.length (fst (renumber_from s 0)) = List.length s /\
  constant_rows (fst (renumber_from s 0))
  = map (fun c => (Op.kConstant, c, c)) (iota (count_constants s)).
Proof.
  intros Hfit. unfold fits_int in Hfit.
  pose proof (count_constants_le_length s) as Hle.
  destruct (renumber_from_spec s 0) as (Hsnd & Hlen & _ & Hcs); [lia | lia |].
  simpl in Hsnd. split; [exact Hsnd |]. split; [exact Hlen |].
  rewrite Hcs. apply map_ext. intros c. reflexivity.
Qed.

(** A completed [update], in full. *)
Lemma update_eq (m : Machine) (s : ArrayX3i) :
  configured_simplifier (this m) (command_array_ (this m)) = Returned s ->
  fits_int s ->
  update m
  = (Returned tt,
     mkMachine (updated s (this m))
       (log m ++ [configured_simplifier_call (this m)
                    (command_array_ (this m))])).
Proof.
  intros Hs Hfit. unfold update.
  pose proof (updateSimplifiedCommandArray_outcome m) as H1.
  rewrite Hs in H1. rewrite (bind_Returned _ _ _ _ _ H1).
  destruct (renumber_from_count s Hfit) as (Hcount & _ & _).
  erewrite bind_Returned.
  2: { unfold updateConstantsArray. erewrite bind_Returned.
       2: apply countAndUpdateConstants_outcome.
       simpl. rewrite Hcount. apply resizeConstantsArrayIfNeeded_eq. }
  unfold assign. simpl. destruct (this m); reflexivity.
Qed.

Lemma refresh_stale_eq (m : Machine) (s : ArrayX3i) :
  modified_ (this m) = true ->
  configured_simplifier (this m) (command_array_ (this m)) = Returned s ->
  fits_int s ->
  refresh m
  = (Returned tt,
     mkMachine (updated s (this m))
       (log m ++ [configured_simplifier_call (this m)
                    (command_array_ (this m))])).
Proof.
  intros Hm Hs Hfit. unfold refresh, bind, self, when. simpl.
  rewrite Hm. now apply update_eq.
Qed.

Lemma refresh_fresh_eq (m : Machine) :
  modified_ (this m) = false -> refresh m = (Returned tt, m).
Proof.
  intros Hm. unfold refresh, bind, self, when, ret. simpl. now rewrite Hm.
Qed.

(** A derived accessor on a stale object whose simplifier returns leaves
    the updated object. *)
Lemma exec_derived_stale (o : Operation) (m : Machine) (s : ArrayX3i) :
  modified_ (this m) = true ->
  configured_simplifier (this m) (command_array_ (this m)) = Returned s ->
  fits_int s ->
  is_derived_accessor o = true ->
  this (exec o m) = updated s (this m).
Proof.
  intros Hm Hs Hfit Hd.
  destruct (exec_derived o m Hd) as (r & m1 & E & Hthis & _).
  rewrite (refresh_stale_eq m s Hm Hs Hfit) in E. injection E as _ <-.
  exact Hthis.
Qed.

(** A derived accessor on a fresh object leaves it as it is and runs no
    simplifier. *)
Lemma exec_derived_fresh (o : Operation) (m : Machine) :
  modified_ (this m) = false ->
  is_derived_accessor o = true ->
  this (exec o m) = this m /\
  pipeline_runs (log (exec o m)) = pipeline_runs (log m).
Proof.
  intros Hm Hd.
  destruct (exec_derived o m Hd) as (r & m1 & E & Hthis & Hruns).
  rewrite (refresh_fresh_eq m Hm) in E. injection E as _ <-.
  auto.
Qed.

End PipelineSteps.

(** ** What an update establishes *)

Section AfterUpdate.

Context {OP : Op.t} {SB : simplification_backend.t}
        {EB : evaluation_backend.t} {SG : string_generation.t}.

Lemma count_constants_renumbered (s : ArrayX3i) :
  fits_int s ->
  count_constants (fst (renumber_from s 0)) = count_constants s.
Proof.
  intros Hfit. destruct (renumber_from_count s Hfit) as (_ & _ & Hcs).
  unfold count_constants at 1. rewrite Hcs. unfold iota.
  now rewrite !length_map, length_seq.
Qed.

(** X1: after the update a derived accessor runs on a stale object, the
    constants vector has one row per constant terminal of the simplified
    program, and every constant terminal carries, in both its fields, an
    index into that vector. *)
Theorem update_leaves_constants_matching_program (o : Operation)
    (m : Machine) (s : ArrayX3i) :
  modified_ (this m) = true ->
  configured_simplifier (this m) (command_array_ (this m)) = Returned s ->
  fits_int s ->
  is_derived_accessor o = true ->
  rows (simplified_constants_ (this (exec o m)))
  = count_constants (simplified_command_array_ (this (exec o m))) /\
  Forall (fun r =>
            is_constant r = true ->
            arg2 r = arg1 r /\
            0 <= arg1 r
            < Z.of_nat (rows (simplified_constants_ (this (exec o m)))))
         (simplified_command_array_ (this (exec o m))).
Proof.
  intros Hm Hs Hfit Hd. rewrite (exec_derived_stale o m s Hm Hs Hfit Hd).
  simpl. rewrite rows_reconciled_constants.
  split; [now rewrite count_constants_renumbered |].
  destruct (renumber_from_count s Hfit) as (_ & _ & Hcs).
  apply Forall_forall. intros r Hin Hr.
  assert (Hc : In r (constant_rows (fst (renumber_from s 0)))).
  { unfold constant_rows. apply filter_In. auto. }
  rewrite Hcs in Hc. apply in_map_iff in Hc as (c & <- & Hc).
  unfold iota in Hc. apply in_map_iff in Hc as (i & <- & Hi).
  apply in_seq in Hi. unfold arg1, arg2. simpl. split; [reflexivity | lia].
Qed.

(** X2: on a stale object, [GetComplexity] is the number of rows of what the
    simplifier returns for the raw array: renumbering adds and removes no
    row. *)
Theorem GetComplexity_is_simplifier_row_count (m : Machine) (s : ArrayX3i) :
  modified_ (this m) = true ->
  configured_simplifier (this m) (command_array_ (this m)) = Returned s ->
  fits_int s ->
  GetComplexity m
  = (Returned (Z.of_nat (List.length s)),
     mkMachine (updated s (this m))
       (log m ++ [configured_simplifier_call (this m)
                    (command_array_ (this m))])).
Proof.
  intros Hm Hs Hfit. unfold GetComplexity.
  rewrite (guarded_eq _ m _ _ (refresh_stale_eq m s Hm Hs Hfit)).
  unfold bind, self, ret. simpl.
  destruct (renumber_from_count s Hfit) as (_ & -> & _).
  rewrite wrap32_small; [reflexivity |].
  unfold fits_int, INT_MAX in *. lia.
Qed.

(** X3: on a stale object, [GetNumberLocalOptimizationParams] is the number
    of constant terminals in what the simplifier returns, whatever the
    number of constants stored before. *)
Theorem GetNumberLocalOptimizationParams_is_constant_count (m : Machine)
    (s : ArrayX3i) :
  modified_ (this m) = true ->
  configured_simplifier (this m) (command_array_ (this m)) = Returned s ->
  fits_int s ->
  GetNumberLocalOptimizationParams m
  = (Returned (Z.of_nat (count_constants s)),
     mkMachine (updated s (this m))
       (log m ++ [configured_simplifier_call (this m)
                    (command_array_ (this m))])).
Proof.
  intros Hm Hs Hfit. unfold GetNumberLocalOptimizationParams.
  rewrite (guarded_eq _ m _ _ (refresh_stale_eq m s Hm Hs Hfit)).
  unfold bind, self, ret. simpl. rewrite rows_reconciled_constants.
  rewrite wrap32_small; [reflexivity |].
  pose proof (count_constants_le_length s).
  unfold fits_int, INT_MAX in *. lia.
Qed.

(** X4: on a stale object, [NeedsLocalOptimization] answers true when the
    simplified program has more constant terminals than constants were
    stored, and otherwise answers with the flag as it stood: an update that
    shrinks the constants or keeps their number raises no request of its
    own. *)
Theorem NeedsLocalOptimization_after_write (m : Machine) (s : ArrayX3i) :
  modified_ (this m) = true ->
  configured_simplifier (this m) (command_array_ (this m)) = Returned s ->
  fits_int s ->
  fst (NeedsLocalOptimization m)
  = Returned (if (count_constants s
                  <=? rows (simplified_constants_ (this m)))%nat
              then needs_opt_ (this m)
              else true).
Proof.
  intros Hm Hs Hfit. unfold NeedsLocalOptimization.
  rewrite (guarded_eq _ m _ _ (refresh_stale_eq m s Hm Hs Hfit)).
  reflexivity.
Qed.

(** X5: when the simplified program has as many constant terminals as
    constants are stored (in a well-shaped vector), the update keeps the
    vector, value for value, and the flag. *)
Theorem update_keeps_constants_when_count_unchanged (o : Operation)
    (m : Machine) (s : ArrayX3i) :
  modified_ (this m) = true ->
  configured_simplifier (this m) (command_array_ (this m)) = Returned s ->
  fits_int s ->
  is_derived_accessor o = true ->
  well_shaped (simplified_constants_ (this m)) ->
  count_constants s = rows (simplified_constants_ (this m)) ->
  simplified_constants_ (this (exec o m)) = simplified_constants_ (this m) /\
  needs_opt_ (this (exec o m)) = needs_opt_ (this m).
Proof.
  intros Hm Hs Hfit Hd Hws Hk.
  rewrite (exec_derived_stale o m s Hm Hs Hfit Hd). simpl.
  unfold reconciled_constants, reconciled_needs_opt.
  rewrite Hk, Nat.leb_refl. split; [| reflexivity].
  now apply conservativeResize_rows_all.
Qed.

(** X6: constants handed over while the object is stale are reconciled by
    the next update like any stored constants: cut to the first rows when
    the simplified program has no more constant terminals than rows were
    handed over, and otherwise replaced, all of them, by ones, with the flag
    that the setter had cleared raised again. *)
Theorem params_set_while_stale_are_reconciled (o : Operation) (m : Machine)
    (params : ArrayXXd) (s : ArrayX3i) :
  modified_ (this m) = true ->
  configured_simplifier (this m) (command_array_ (this m)) = Returned s ->
  fits_int s ->
  is_derived_accessor o = true ->
  simplified_constants_
    (this (exec o (exec (op_SetLocalOptimizationParams params) m)))
  = (if (count_constants s <=? rows params)%nat
     then conservativeResize_rows params (count_constants s)
     else Constant (count_constants s) 1 1%float) /\
  needs_opt_ (this (exec o (exec (op_SetLocalOptimizationParams params) m)))
  = negb (count_constants s <=? rows params)%nat.
Proof.
  intros Hm Hs Hfit Hd.
  rewrite (exec_derived_stale o _ s); try assumption.
  simpl. unfold reconciled_constants, reconciled_needs_opt, setOnes.
  destruct (count_constants s <=? rows params)%nat; split; reflexivity.
Qed.

(** X7: renumbering is idempotent: a second [countAndUpdateConstants]
    returns the same count and leaves the same array. *)
Theorem countAndUpdateConstants_idempotent (m : Machine) :
  (countAndUpdateConstants ;; countAndUpdateConstants) m
  = countAndUpdateConstants m.
Proof.
  assert (H : forall (s : ArrayX3i) (n : Z),
             renumber_from (fst (renumber_from s n)) n = renumber_from s n).
  { induction s as [|r rest IH]; intros n; [reflexivity |].
    simpl. destruct (row_coeff r kOpIdx =? Op.kConstant) eqn:Hr.
    - specialize (IH (int_incr n)).
      destruct (renumber_from rest (int_incr n)) as [rest' n'] eqn:E.
      simpl in *. rewrite Z.eqb_refl, IH. reflexivity.
    - specialize (IH n).
      destruct (renumber_from rest n) as [rest' n'] eqn:E.
      simpl in *. rewrite Hr, IH. reflexivity. }
  erewrite bind_Returned; [| apply countAndUpdateConstants_outcome].
  rewrite !countAndUpdateConstants_outcome. simpl. rewrite H.
  destruct (this m); reflexivity.
Qed.


(** X19: an evaluation whose backend call fails with an exception other
    than an overflow or an underflow throws it on, after the update: the
    stale object has been refreshed all the same, so the update is not
    repeated by the next accessor. *)
Theorem evaluation_failure_keeps_update (x : ArrayXXd) (m : Machine)
    (s : ArrayX3i) (e : exn) :
  modified_ (this m) = true ->
  configured_simplifier (this m) (command_array_ (this m)) = Returned s ->
  fits_int s ->
  evaluation_backend.Evaluate (fst (renumber_from s 0)) x
    (reconciled_constants (simplified_constants_ (this m)) (count_constants s))
  = Thrown e ->
  e <> underflow_error ->
  e <> overflow_error ->
  EvaluateEquationAt x m
  = (Thrown e,
     mkMachine (updated s (this m))
       (log m ++ [configured_simplifier_call (this m)
                    (command_array_ (this m));
                  call_Evaluate (fst (renumber_from s 0)) x
                    (reconciled_constants (simplified_constants_ (this m))
                       (count_constants s))])) /\
  modified_ (this (snd (EvaluateEquationAt x m))) = false.
Proof.
  intros Hm Hs Hfit He Hu Ho.
  rewrite (EvaluateEquationAt_eq x m _ _ (refresh_stale_eq m s Hm Hs Hfit)).
  simpl. rewrite He, <- app_assoc. simpl.
  destruct e; try contradiction; split; reflexivity.
Qed.

End AfterUpdate.

(** ** What survives which calls *)

Section Persistence.

Context {OP : Op.t} {SB : simplification_backend.t}
        {EB : evaluation_backend.t} {SG : string_generation.t}.

(** The age and the caches across a call that is no derived accessor. *)
Lemma exec_plain_caches (o : Operation) (m : Machine) :
  is_derived_accessor o = false ->
  (sets_age o = false ->
     genetic_age_ (this (exec o m)) = genetic_age_ (this m)) /\
  (sets_params o = false ->
     simplified_constants_ (this (exec o m)) = simplified_constants_ (this m) /\
     needs_opt_ (this (exec o m)) = needs_opt_ (this m)) /\
  simplified_command_array_ (this (exec o m))
  = simplified_command_array_ (this m).
Proof.
  intros Hd. unfold exec.
  destruct o; try discriminate Hd; simpl run_op;
    try (destruct raw; try discriminate Hd);
    rewrite ?snd_discard;
    unfold Copy, DumpState, GetCommandArray, GetCommandArrayModifiable,
      store_command_array, SetCommandArray, GetFitness, SetFitness,
      IsFitnessSet, SetFitnessStatus, SetGeneticAge, GetGeneticAge,
      GetUtilizedCommands, SetLocalOptimizationParams,
      GetLocalOptimizationParams, GetFormattedString, Distance,
      notify_agraph_modification, bind, self, assign, call, ret;
    simpl;
    repeat match goal with
           | |- context [if ?b then _ else _] => destruct b; simpl
           end;
    repeat split; try reflexivity; try discriminate.
Qed.

Lemma exec_derived_same_raw (o : Operation) (m : Machine) :
  is_derived_accessor o = true -> same_raw (this m) (this (exec o m)).
Proof.
  intros Hd. destruct (exec_derived o m Hd) as (r & m1 & E & Hthis & _).
  destruct (refresh_outcome m) as (r' & g' & l' & E' & Hraw & _).
  rewrite E in E'. injection E' as _ ->. now rewrite Hthis.
Qed.

(** X9: a derived accessor (an evaluation, a complexity or parameter query,
    a rendering of the simplified form), whether it returns or throws and
    whether or not it updates, leaves the raw array, the fitness, its flag,
    the age and the choice of simplifier as they were. *)
Theorem derived_accessors_keep_raw_state (o : Operation) (m : Machine) :
  is_derived_accessor o = true ->
  command_array_ (this (exec o m)) = command_array_ (this m) /\
  fitness_ (this (exec o m)) = fitness_ (this m) /\
  fit_set_ (this (exec o m)) = fit_set_ (this m) /\
  genetic_age_ (this (exec o m)) = genetic_age_ (this m) /\
  use_simplification_ (this (exec o m)) = use_simplification_ (this m).
Proof.
  intros Hd. pose proof (exec_derived_same_raw o m Hd) as H.
  unfold same_raw in H. tauto.
Qed.

(** X10: a fitness that was set is read back, with the flag up, after any
    calls other than the fitness setters and the writes to the raw array:
    evaluations and updates do not touch it, and [SetFitness] itself leaves
    the staleness as it was. *)
Theorem SetFitness_persists (fitness : float) (ops : list Operation)
    (m : Machine) :
  forallb (fun o => negb (touches_fitness o)) ops = true ->
  fst (GetFitness (run_ops ops (exec (op_SetFitness fitness) m)))
  = Returned fitness /\
  fst (IsFitnessSet (run_ops ops (exec (op_SetFitness fitness) m)))
  = Returned true /\
  modified_ (this (exec (op_SetFitness fitness) m)) = modified_ (this m).
Proof.
  intros Hops.
  assert (H : forall m0 : Machine,
             fitness_ (this (run_ops ops m0)) = fitness_ (this m0) /\
             fit_set_ (this (run_ops ops m0)) = fit_set_ (this m0)).
  { induction ops as [|o ops IH]; intros m0; simpl in *; [auto |].
    apply andb_true_iff in Hops as [Ho Hops]. apply negb_true_iff in Ho.
    destruct (IH Hops (exec o m0)) as [-> ->].
    now apply exec_keeps_fitness. }
  destruct (H (exec (op_SetFitness fitness) m)) as [Hf Hs].
  simpl. rewrite Hf, Hs. repeat split.
Qed.

Lemma exec_keeps_age (o : Operation) (m : Machine) :
  sets_age o = false ->
  genetic_age_ (this (exec o m)) = genetic_age_ (this m).
Proof.
  intros Ha. destruct (is_derived_accessor o) eqn:Hd.
  - pose proof (exec_derived_same_raw o m Hd) as H.
    unfold same_raw in H. tauto.
  - now apply (exec_plain_caches o m Hd).
Qed.

(** X11: the genetic age is read back after any calls other than
    [SetGeneticAge]: writes to the raw array, which reset the fitness, and
    updates leave the age alone. *)
Theorem SetGeneticAge_persists (age : Z) (ops : list Operation)
    (m : Machine) :
  forallb (fun o => negb (sets_age o)) ops = true ->
  fst (GetGeneticAge (run_ops ops (exec (op_SetGeneticAge age) m)))
  = Returned age.
Proof.
  intros Hops.
  assert (H : forall m0 : Machine,
             genetic_age_ (this (run_ops ops m0)) = genetic_age_ (this m0)).
  { induction ops as [|o ops IH]; intros m0; simpl in *; [auto |].
    apply andb_true_iff in Hops as [Ho Hops]. apply negb_true_iff in Ho.
    rewrite (IH Hops (exec o m0)). now apply exec_keeps_age. }
  simpl. now rewrite H.
Qed.

Lemma exec_keeps_command_array (o : Operation) (m : Machine) :
  is_raw_write o = false ->
  command_array_ (this (exec o m)) = command_array_ (this m).
Proof.
  intros Hw. destruct (is_derived_accessor o) eqn:Hd.
  - pose proof (exec_derived_same_raw o m Hd) as H.
    unfold same_raw in H. tauto.
  - now apply (exec_plain o m Hd).
Qed.

(** X12: the array given to [SetCommandArray] is what [GetCommandArray]
    returns after any calls that are no raw write; simplification and
    renumbering work on the cached copy and never on the raw array. *)
Theorem SetCommandArray_persists (command_array : ArrayX3i)
    (ops : list Operation) (m : Machine) :
  forallb (fun o => negb (is_raw_write o)) ops = true ->
  fst (GetCommandArray
         (run_ops ops (exec (op_SetCommandArray command_array) m)))
  = Returned command_array.
Proof.
  intros Hops.
  assert (H : forall m0 : Machine,
             command_array_ (this (run_ops ops m0)) = command_array_ (this m0)).
  { induction ops as [|o ops IH]; intros m0; simpl in *; [auto |].
    apply andb_true_iff in Hops as [Ho Hops]. apply negb_true_iff in Ho.
    rewrite (IH Hops (exec o m0)). now apply exec_keeps_command_array. }
  simpl. now rewrite H.
Qed.

(** On a fresh object, a call that is neither a raw write nor the parameter
    setter keeps the object fresh and the cached constants and flag. *)
Lemma fresh_step_keeps_params (o : Operation) (m : Machine) :
  modified_ (this m) = false ->
  is_raw_write o = false ->
  sets_params o = false ->
  modified_ (this (exec o m)) = false /\
  simplified_constants_ (this (exec o m)) = simplified_constants_ (this m) /\
  needs_opt_ (this (exec o m)) = needs_opt_ (this m).
Proof.
  intros Hm Hw Hp. destruct (is_derived_accessor o) eqn:Hd.
  - destruct (exec_derived_fresh o m Hm Hd) as [-> _]. auto.
  - destruct (exec_plain o m Hd) as (_ & _ & _ & Hmod & _).
    destruct (exec_plain_caches o m Hd) as (_ & Hc & _).
    rewrite (Hmod (notifying_write_is_raw o Hw)). split; [exact Hm |].
    now apply Hc.
Qed.

(** X13: on a fresh object, the constants handed to
    [SetLocalOptimizationParams] are what [GetLocalOptimizationParams]
    returns, and [NeedsLocalOptimization] answers false, after any calls
    that are neither a raw write nor the setter again: evaluations on a
    fresh object do not touch the constants. *)
Theorem SetLocalOptimizationParams_persists (params : ArrayXXd)
    (ops : list Operation) (m : Machine) :
  modified_ (this m) = false ->
  forallb (fun o => negb (is_raw_write o) && negb (sets_params o)) ops = true ->
  fst (GetLocalOptimizationParams
         (run_ops ops (exec (op_SetLocalOptimizationParams params) m)))
  = Returned params /\
  fst (NeedsLocalOptimization
         (run_ops ops (exec (op_SetLocalOptimizationParams params) m)))
  = Returned false.
Proof.
  intros Hm Hops.
  assert (H : forall m0 : Machine,
             modified_ (this m0) = false ->
             modified_ (this (run_ops ops m0)) = false /\
             simplified_constants_ (this (run_ops ops m0))
             = simplified_constants_ (this m0) /\
             needs_opt_ (this (run_ops ops m0)) = needs_opt_ (this m0)).
  { induction ops as [|o ops IH]; intros m0 Hm0; simpl in *; [auto |].
    apply andb_true_iff in Hops as [Ho Hops].
    apply andb_true_iff in Ho as [Hw Hp].
    apply negb_true_iff in Hw. apply negb_true_iff in Hp.
    destruct (fresh_step_keeps_params o m0 Hm0 Hw Hp) as (Hm1 & Hc & Hn).
    destruct (IH Hops (exec o m0) Hm1) as (-> & -> & ->). auto. }
  destruct (H (exec (op_SetLocalOptimizationParams params) m) Hm)
    as (Hmod & Hc & Hn).
  split.
  - simpl. now rewrite Hc.
  - unfold NeedsLocalOptimization.
    rewrite (guarded_eq _ _ _ _ (refresh_fresh_eq _ Hmod)).
    simpl. now rewrite Hn.
Qed.

(** X14: an object that was constructed and never written to is fresh: over
    any calls that are no raw write no simplifier is ever called; as
    constructed, its complexity is 0 and it has no parameters to
    optimize. *)
Theorem constructed_object_is_fresh (use_simplification : bool)
    (ops : list Operation) :
  forallb (fun o => negb (is_raw_write o)) ops = true ->
  pipeline_runs (log (run_ops ops (fresh_machine use_simplification))) = 0%nat /\
  modified_ (this (run_ops ops (fresh_machine use_simplification))) = false /\
  GetComplexity (fresh_machine use_simplification)
  = (Returned 0, fresh_machine use_simplification) /\
  GetNumberLocalOptimizationParams (fresh_machine use_simplification)
  = (Returned 0, fresh_machine use_simplification).
Proof.
  intros Hops.
  destruct (fresh_run ops (fresh_machine use_simplification) eq_refl Hops)
    as [Hruns Hmod].
  repeat split; assumption || reflexivity.
Qed.

(** X15: the reference [GetCommandArrayModifiable] returns outlives the
    notification made when it was handed out. A store through it on an
    object that has been refreshed since leaves the object fresh: the next
    derived accessor runs no simplifier and serves the cached simplified
    array of the previous raw array. *)
Theorem store_through_reference_is_not_noticed (command_array : ArrayX3i)
    (o : Operation) (m : Machine) :
  modified_ (this m) = false ->
  is_derived_accessor o = true ->
  command_array_
    (this (exec o (exec (op_store_command_array command_array) m)))
  = command_array /\
  modified_ (this (exec o (exec (op_store_command_array command_array) m)))
  = false /\
  simplified_command_array_
    (this (exec o (exec (op_store_command_array command_array) m)))
  = simplified_command_array_ (this m) /\
  simplified_constants_
    (this (exec o (exec (op_store_command_array command_array) m)))
  = simplified_constants_ (this m) /\
  pipeline_runs
    (log (exec o (exec (op_store_command_array command_array) m)))
  = pipeline_runs (log m).
Proof.
  intros Hm Hd.
  destruct (exec_derived_fresh o
              (exec (op_store_command_array command_array) m) Hm Hd)
    as [-> ->].
  simpl. auto.
Qed.

End Persistence.

(** X16: a dumped state restores to the object it was dumped from, a
    restored state dumps to itself, and a copy has every field of the
    original, the staleness flag and the caches included; none of the three
    runs the pipeline. *)
Theorem DumpState_round_trip (m : Machine) (state : AGraphState) :
  (exists dumped : AGraphState,
     DumpState m = (Returned dumped, m) /\
     AGraph_of_state dumped = this m) /\
  DumpState (mkMachine (AGraph_of_state state) (log m))
  = (Returned state, mkMachine (AGraph_of_state state) (log m)) /\
  Copy m = (Returned (this m), m).
Proof.
  destruct m as [g l]. destruct g as [ca sca sc no fi fs ga mo us].
  destruct state as [[[[[[[[s0 s1] s2] s3] s4] s5] s6] s7] s8].
  split; [eexists; split; reflexivity |]. split; reflexivity.
Qed.

(** ** The distance as a metric *)

Lemma row_ne_count_b2n (r s : Row) :
  List.length (filter (fun b => b) (row_ne r s))
  = (Nat.b2n (negb (Z.eqb (row_coeff r kOpIdx) (row_coeff s kOpIdx)))
     + Nat.b2n (negb (Z.eqb (row_coeff r kFirstArgumentIndex)
                             (row_coeff s kFirstArgumentIndex)))
     + Nat.b2n (negb (Z.eqb (row_coeff r kSecondArgumentIndex)
                             (row_coeff s kSecondArgumentIndex))))%nat.
Proof.
  unfold row_ne. simpl.
  destruct (negb (row_coeff r kOpIdx =? row_coeff s kOpIdx));
    destruct (negb (row_coeff r kFirstArgumentIndex
                    =? row_coeff s kFirstArgumentIndex));
    destruct (negb (row_coeff r kSecondArgumentIndex
                    =? row_coeff s kSecondArgumentIndex));
    reflexivity.
Qed.

Lemma ne_triangle (x y z : Z) :
  (Nat.b2n (negb (Z.eqb x z))
   <= Nat.b2n (negb (Z.eqb x y)) + Nat.b2n (negb (Z.eqb y z)))%nat.
Proof.
  destruct (Z.eqb_spec x y), (Z.eqb_spec y z), (Z.eqb_spec x z);
    simpl; try lia; congruence.
Qed.

Lemma hamming_cons (r s : Row) (a b : ArrayX3i) :
  hamming (r :: a) (s :: b)
  = (List.length (filter (fun b => b) (row_ne r s)) + hamming a b)%nat.
Proof. unfold hamming, cwise_ne. simpl. apply count_cons. Qed.

Lemma hamming_triangle (a : ArrayX3i) :
  forall b c : ArrayX3i,
    List.length a = List.length b ->
    List.length b = List.length c ->
    (hamming a c <= hamming a b + hamming b c)%nat.
Proof.
  induction a as [|r a IH]; intros [|s b] [|t c] Hab Hbc;
    try discriminate Hab; try discriminate Hbc.
  - unfold hamming, count. simpl. lia.
  - injection Hab as Hab. injection Hbc as Hbc.
    rewrite !hamming_cons, !row_ne_count_b2n.
    specialize (IH b c Hab Hbc).
    pose proof (ne_triangle (row_coeff r kOpIdx) (row_coeff s kOpIdx)
                  (row_coeff t kOpIdx)).
    pose proof (ne_triangle (row_coeff r kFirstArgumentIndex)
                  (row_coeff s kFirstArgumentIndex)
                  (row_coeff t kFirstArgumentIndex)).
    pose proof (ne_triangle (row_coeff r kSecondArgumentIndex)
                  (row_coeff s kSecondArgumentIndex)
                  (row_coeff t kSecondArgumentIndex)).
    lia.
Qed.

Lemma hamming_le (a : ArrayX3i) :
  forall b : ArrayX3i, (hamming a b <= 3 * List.length a)%nat.
Proof.
  induction a as [|r a IH]; intros [|s b];
    try (unfold hamming, count; simpl; lia).
  rewrite hamming_cons, row_ne_count_b2n. specialize (IH b).
  simpl List.length.
  destruct (negb (row_coeff r kOpIdx =? row_coeff s kOpIdx));
    destruct (negb (row_coeff r kFirstArgumentIndex
                    =? row_coeff s kFirstArgumentIndex));
    destruct (negb (row_coeff r kSecondArgumentIndex
                    =? row_coeff s kSecondArgumentIndex));
    simpl; lia.
Qed.

Lemma hamming_zero (a : ArrayX3i) :
  forall b : ArrayX3i,
    List.length a = List.length b ->
    (hamming a b = 0%nat <-> a = b).
Proof.
  induction a as [|r a IH]; intros [|s b] Hlen; try discriminate Hlen.
  - unfold hamming, count. simpl. tauto.
  - injection Hlen as Hlen. rewrite hamming_cons, row_ne_count_b2n.
    specialize (IH b Hlen).
    destruct r as [[r0 r1] r2]. destruct s as [[s0 s1] s2]. simpl.
    destruct (Z.eqb_spec r0 s0), (Z.eqb_spec r1 s1), (Z.eqb_spec r2 s2);
      simpl; split; intros H;
      try discriminate H; try (injection H; intros; congruence).
    + f_equal; [congruence | apply IH; lia].
    + injection H as _ _ _ H. apply IH in H. lia.
Qed.

Lemma Distance_hamming (m : Machine) (agraph : AGraph) :
  List.length (command_array_ (this m)) = List.length (command_array_ agraph) ->
  3 * Z.of_nat (List.length (command_array_ (this m))) <= INT_MAX ->
  Distance agraph m
  = (Returned (Z.of_nat (hamming (command_array_ (this m))
                                 (command_array_ agraph))),
     m).
Proof.
  intros Hlen Hfit. unfold Distance, bind, self, ret. simpl.
  rewrite Hlen, Nat.eqb_refl. fold (hamming (command_array_ (this m))
                                            (command_array_ agraph)).
  pose proof (hamming_le (command_array_ (this m)) (command_array_ agraph)).
  rewrite wrap32_small; [reflexivity |]. unfold INT_MAX in *. lia.
Qed.

(** X17: between objects whose raw arrays have the same number of rows
    (three times which an [int] can hold), the distance is 0 exactly when
    the raw arrays are identical: arrays that differ in any field of any
    row are at a positive distance. *)
Theorem Distance_zero_iff_identical (m : Machine) (agraph : AGraph) :
  List.length (command_array_ (this m)) = List.length (command_array_ agraph) ->
  3 * Z.of_nat (List.length (command_array_ (this m))) <= INT_MAX ->
  fst (Distance agraph m) = Returned 0
  <-> command_array_ (this m) = command_array_ agraph.
Proof.
  intros Hlen Hfit. rewrite (Distance_hamming m agraph Hlen Hfit).
  simpl. rewrite <- (hamming_zero _ _ Hlen). split; intros H.
  - injection H as H. lia.
  - now rewrite H.
Qed.

(** X18: between objects whose raw arrays have the same number of rows
    (three times which an [int] can hold) the distance obeys the triangle
    inequality, is never negative and is at most three times the number of
    rows. *)
Theorem Distance_triangle (a b c : AGraph) (l : list Call) :
  List.length (command_array_ a) = List.length (command_array_ b) ->
  List.length (command_array_ b) = List.length (command_array_ c) ->
  3 * Z.of_nat (List.length (command_array_ a)) <= INT_MAX ->
  exists dab dbc dac : Z,
    fst (Distance b (mkMachine a l)) = Returned dab /\
    fst (Distance c (mkMachine b l)) = Returned dbc /\
    fst (Distance c (mkMachine a l)) = Returned dac /\
    dac <= dab + dbc /\
    0 <= dac <= 3 * Z.of_nat (List.length (command_array_ a)).
Proof.
  intros Hab Hbc Hfit.
  assert (Hac : List.length (command_array_ a) = List.length (command_array_ c))
    by congruence.
  assert (Hfitb : 3 * Z.of_nat (List.length (command_array_ b)) <= INT_MAX)
    by (rewrite <- Hab; exact Hfit).
  exists (Z.of_nat (hamming (command_array_ a) (command_array_ b))),
    (Z.of_nat (hamming (command_array_ b) (command_array_ c))),
    (Z.of_nat (hamming (command_array_ a) (command_array_ c))).
  rewrite (Distance_hamming (mkMachine a l) b Hab Hfit).
  rewrite (Distance_hamming (mkMachine b l) c Hbc Hfitb).
  rewrite (Distance_hamming (mkMachine a l) c Hac Hfit).
  pose proof (hamming_triangle _ _ _ Hab Hbc).
  pose proof (hamming_le (command_array_ a) (command_array_ c)).
  repeat split; try reflexivity; lia.
Qed.

(** ** The lazy update protocol, with what is recomputed *)

Section LazyUpdate.

Context {OP : Op.t} {SB : simplification_backend.t}
        {EB : evaluation_backend.t} {SG : string_generation.t}.

Lemma run_ops_app (pre post : list Operation) (m : Machine) :
  run_ops (pre ++ post) m = run_ops post (run_ops pre m).
Proof. unfold run_ops. apply fold_left_app. Qed.

(** Calls that are neither raw writes nor derived accessors leave a stale
    object stale, with the raw array and the choice of simplifier it had. *)
Lemma stale_prefix (pre : list Operation) :
  forall m : Machine,
    modified_ (this m) = true ->
    forallb (fun o => negb (is_raw_write o)) pre = true ->
    existsb is_derived_accessor pre = false ->
    modified_ (this (run_ops pre m)) = true /\
    command_array_ (this (run_ops pre m)) = command_array_ (this m) /\
    use_simplification_ (this (run_ops pre m)) = use_simplification_ (this m).
Proof.
  induction pre as [|o pre IH]; intros m Hm Hw Hd; simpl in *; [auto |].
  apply andb_true_iff in Hw as [Ho Hw]. apply negb_true_iff in Ho.
  apply orb_false_iff in Hd as [Hdo Hd].
  destruct (exec_plain o m Hdo) as (_ & Hus & Hca & Hmod & _).
  destruct (IH (exec o m)) as (H1 & H2 & H3); try assumption.
  - now rewrite (Hmod (notifying_write_is_raw o Ho)).
  - rewrite H2, H3, Hus, (Hca Ho). auto.
Qed.

(** C5, as the code has it: from a stale object whose simplifier returns
    for the raw array (an array an [int] can index), over any sequence of
    calls without a raw write, the pipeline runs once if the sequence holds
    a derived accessor (evaluation, complexity, rendering of the simplified
    form, needs-optimization query, parameter count) and not at all
    otherwise, and the object is fresh exactly after the first derived
    accessor. That first derived accessor recomputes the derived state: it
    leaves the renumbered output of the simplifier as the simplified
    program, the reconciled constants and flag, and nothing ran before it.
    Every later derived accessor leaves the object as it found it and runs
    nothing. A raw write, on any object, runs nothing and leaves the cached
    simplified program, constants and flag as they were. *)
Theorem update_runs_once_per_staleness (ops : list Operation) (m : Machine)
    (s : ArrayX3i) :
  modified_ (this m) = true ->
  configured_simplifier (this m) (command_array_ (this m)) = Returned s ->
  fits_int s ->
  forallb (fun o => negb (is_raw_write o)) ops = true ->
  pipeline_runs (log (run_ops ops m))
  = (pipeline_runs (log m)
     + (if existsb is_derived_accessor ops then 1 else 0))%nat /\
  modified_ (this (run_ops ops m)) = negb (existsb is_derived_accessor ops) /\
  (forall (pre : list Operation) (o : Operation) (post : list Operation),
     ops = pre ++ o :: post ->
     existsb is_derived_accessor pre = false ->
     is_derived_accessor o = true ->
     pipeline_runs (log (run_ops pre m)) = pipeline_runs (log m) /\
     this (run_ops (pre ++ [o]) m) = updated s (this (run_ops pre m)) /\
     simplified_command_array_ (this (run_ops (pre ++ [o]) m))
     = fst (renumber_from s 0) /\
     simplified_constants_ (this (run_ops (pre ++ [o]) m))
     = (if (count_constants s
            <=? rows (simplified_constants_ (this (run_ops pre m))))%nat
        then conservativeResize_rows
               (simplified_constants_ (this (run_ops pre m)))
               (count_constants s)
        else Constant (count_constants s) 1 1%float) /\
     pipeline_runs (log (run_ops (pre ++ [o]) m))
     = S (pipeline_runs (log m))) /\
  (forall (pre : list Operation) (o : Operation) (post : list Operation),
     ops = pre ++ o :: post ->
     existsb is_derived_accessor pre = true ->
     is_derived_accessor o = true ->
     this (run_ops (pre ++ [o]) m) = this (run_ops pre m) /\
     pipeline_runs (log (run_ops (pre ++ [o]) m))
     = pipeline_runs (log (run_ops pre m))) /\
  (forall (w : Operation) (m0 : Machine),
     is_raw_write w = true ->
     pipeline_runs (log (exec w m0)) = pipeline_runs (log m0) /\
     simplified_command_array_ (this (exec w m0))
     = simplified_command_array_ (this m0) /\
     simplified_constants_ (this (exec w m0))
     = simplified_constants_ (this m0) /\
     needs_opt_ (this (exec w m0)) = needs_opt_ (this m0)).
Proof.
  intros Hm Hs Hfit Hw.
  destruct (pipeline_run_count ops m s Hm Hs Hfit Hw) as (Hruns & Hmod & _).
  split; [exact Hruns |]. split; [exact Hmod |].
  split; [| split].
  - intros pre o post -> Hpre Hd.
    rewrite forallb_app in Hw. apply andb_true_iff in Hw as [Hwpre _].
    destruct (stale_prefix pre m Hm Hwpre Hpre) as (Hm' & Hca & Hus).
    destruct (pipeline_run_count pre m s Hm Hs Hfit Hwpre)
      as (Hrpre & _ & _).
    rewrite Hpre, Nat.add_0_r in Hrpre.
    assert (Hs' : configured_simplifier (this (run_ops pre m))
                    (command_array_ (this (run_ops pre m))) = Returned s).
    { unfold configured_simplifier in *. now rewrite Hus, Hca. }
    rewrite run_ops_app. simpl run_ops.
    rewrite (exec_derived_stale o _ s Hm' Hs' Hfit Hd).
    destruct (stale_derived_step o _ s Hm' Hs' Hfit Hd) as (Hr & _ & _).
    rewrite Hr, Hrpre. repeat split; reflexivity.
  - intros pre o post -> Hpre Hd.
    rewrite forallb_app in Hw. apply andb_true_iff in Hw as [Hwpre _].
    destruct (pipeline_run_count pre m s Hm Hs Hfit Hwpre)
      as (_ & Hmpre & _).
    rewrite Hpre in Hmpre. simpl in Hmpre.
    rewrite run_ops_app. simpl run_ops.
    now apply exec_derived_fresh.
  - intros w m0 Hraw.
    pose proof (raw_write_not_derived w Hraw) as Hnd.
    destruct (exec_plain w m0 Hnd) as (Hr & _).
    destruct (exec_plain_caches w m0 Hnd) as (_ & Hc & Hsc).
    assert (Hp : sets_params w = false)
      by (destruct w; try discriminate Hraw; reflexivity).
    destruct (Hc Hp) as [Hc1 Hc2]. auto.
Qed.

End LazyUpdate.

(** * Worked instances of the further properties *)

Lemma two_constants_well_shaped :
  well_shaped (simplified_constants_ (this sample_stale_two)).
Proof. repeat constructor. Qed.

Lemma update_leaves_constants_matching_program_witness :
  rows (simplified_constants_
          (this (sample_exec op_GetComplexity (sample_stale false))))
  = count_constants (OP := sample_Op)
      (simplified_command_array_
         (this (sample_exec op_GetComplexity (sample_stale false)))).
Proof.
  exact (proj1 (update_leaves_constants_matching_program
                  (OP := sample_Op) (SB := sample_simplification)
                  (EB := shaped_evaluation) (SG := sample_strings)
                  op_GetComplexity (sample_stale false) sample_stack
                  eq_refl eq_refl sample_stack_fits eq_refl)).
Defined.

Lemma GetComplexity_witness :
  fst (GetComplexity (OP := sample_Op) (SB := sample_simplification)
         (sample_stale false))
  = Returned 4.
Proof.
  exact (f_equal fst
           (GetComplexity_is_simplifier_row_count
              (OP := sample_Op) (SB := sample_simplification)
              (sample_stale false) sample_stack
              eq_refl eq_refl sample_stack_fits)).
Defined.

Lemma GetNumberLocalOptimizationParams_witness :
  fst (GetNumberLocalOptimizationParams (OP := sample_Op)
         (SB := sample_simplification) (sample_stale false))
  = Returned 2.
Proof.
  exact (f_equal fst
           (GetNumberLocalOptimizationParams_is_constant_count
              (OP := sample_Op) (SB := sample_simplification)
              (sample_stale false) sample_stack
              eq_refl eq_refl sample_stack_fits)).
Defined.

Lemma NeedsLocalOptimization_witness :
  fst (NeedsLocalOptimization (OP := sample_Op) (SB := sample_simplification)
         (sample_stale false))
  = Returned true /\
  fst (NeedsLocalOptimization (OP := sample_Op) (SB := sample_simplification)
         sample_stale_two)
  = Returned false.
Proof.
  exact (conj
           (NeedsLocalOptimization_after_write
              (OP := sample_Op) (SB := sample_simplification)
              (sample_stale false) sample_stack
              eq_refl eq_refl sample_stack_fits)
           (NeedsLocalOptimization_after_write
              (OP := sample_Op) (SB := sample_simplification)
              sample_stale_two sample_stack
              eq_refl eq_refl sample_stack_fits)).
Defined.

Lemma update_keeps_constants_witness :
  simplified_constants_ (this (sample_exec op_GetComplexity sample_stale_two))
  = mkArrayXXd 2 [[5; 6]%float].
Proof.
  exact (proj1 (update_keeps_constants_when_count_unchanged
                  (OP := sample_Op) (SB := sample_simplification)
                  (EB := shaped_evaluation) (SG := sample_strings)
                  op_GetComplexity sample_stale_two sample_stack
                  eq_refl eq_refl sample_stack_fits eq_refl
                  two_constants_well_shaped eq_refl)).
Defined.

Lemma params_set_while_stale_witness :
  simplified_constants_
    (this (sample_exec op_GetComplexity
             (sample_exec
                (op_SetLocalOptimizationParams (mkArrayXXd 1 [[5%float]]))
                (sample_stale false))))
  = mkArrayXXd 2 [[1; 1]%float].
Proof.
  exact (proj1 (params_set_while_stale_are_reconciled
                  (OP := sample_Op) (SB := sample_simplification)
                  (EB := shaped_evaluation) (SG := sample_strings)
                  op_GetComplexity (sample_stale false)
                  (mkArrayXXd 1 [[5%float]]) sample_stack
                  eq_refl eq_refl sample_stack_fits eq_refl)).
Defined.


Lemma evaluation_failure_witness :
  modified_
    (this (snd (EvaluateEquationAt (OP := sample_Op)
                  (SB := sample_simplification) (EB := failing_evaluation)
                  sample_x (sample_stale false))))
  = false.
Proof.
  refine (proj2 (evaluation_failure_keeps_update
                   (OP := sample_Op) (SB := sample_simplification)
                   (EB := failing_evaluation)
                   sample_x (sample_stale false) sample_stack other_exception
                   eq_refl eq_refl sample_stack_fits eq_refl _ _));
    discriminate.
Defined.

Lemma derived_accessors_keep_raw_state_witness :
  command_array_
    (this (sample_exec (op_EvaluateEquationAt sample_x) (sample_stale false)))
  = sample_stack.
Proof.
  exact (proj1 (derived_accessors_keep_raw_state
                  (OP := sample_Op) (SB := sample_simplification)
                  (EB := shaped_evaluation) (SG := sample_strings)
                  (op_EvaluateEquationAt sample_x) (sample_stale false)
                  eq_refl)).
Defined.

Lemma SetFitness_persists_witness :
  fst (GetFitness
         (sample_run [op_GetComplexity; op_SetGeneticAge 3;
                      op_EvaluateEquationAt sample_x]
            (sample_exec (op_SetFitness 0.5%float) (sample_stale false))))
  = Returned 0.5%float.
Proof.
  exact (proj1 (SetFitness_persists
                  (OP := sample_Op) (SB := sample_simplification)
                  (EB := shaped_evaluation) (SG := sample_strings)
                  0.5%float
                  [op_GetComplexity; op_SetGeneticAge 3;
                   op_EvaluateEquationAt sample_x]
                  (sample_stale false) eq_refl)).
Defined.

Lemma SetGeneticAge_persists_witness :
  fst (GetGeneticAge
         (sample_run [op_SetCommandArray sample_stack; op_GetComplexity;
                      op_SetFitness 0.5%float]
            (sample_exec (op_SetGeneticAge 3) (fresh_machine false))))
  = Returned 3.
Proof.
  exact (SetGeneticAge_persists
           (OP := sample_Op) (SB := sample_simplification)
           (EB := shaped_evaluation) (SG := sample_strings)
           3
           [op_SetCommandArray sample_stack; op_GetComplexity;
            op_SetFitness 0.5%float]
           (fresh_machine false) eq_refl).
Defined.

Lemma SetCommandArray_persists_witness :
  fst (GetCommandArray
         (sample_run [op_GetComplexity; op_EvaluateEquationAt sample_x;
                      op_SetFitness 0.5%float]
            (sample_exec (op_SetCommandArray sample_stack)
               (fresh_machine false))))
  = Returned sample_stack.
Proof.
  exact (SetCommandArray_persists
           (OP := sample_Op) (SB := sample_simplification)
           (EB := shaped_evaluation) (SG := sample_strings)
           sample_stack
           [op_GetComplexity; op_EvaluateEquationAt sample_x;
            op_SetFitness 0.5%float]
           (fresh_machine false) eq_refl).
Defined.

Lemma SetLocalOptimizationParams_persists_witness :
  fst (GetLocalOptimizationParams
         (sample_run [op_EvaluateEquationAt sample_x; op_GetComplexity]
            (sample_exec
               (op_SetLocalOptimizationParams (mkArrayXXd 1 [[7%float]]))
               sample_sum)))
  = Returned (mkArrayXXd 1 [[7%float]]).
Proof.
  exact (proj1 (SetLocalOptimizationParams_persists
                  (OP := sample_Op) (SB := sample_simplification)
                  (EB := shaped_evaluation) (SG := sample_strings)
                  (mkArrayXXd 1 [[7%float]])
                  [op_EvaluateEquationAt sample_x; op_GetComplexity]
                  sample_sum eq_refl eq_refl)).
Defined.

Lemma constructed_object_is_fresh_witness :
  pipeline_runs
    (log (sample_run [op_GetComplexity; op_EvaluateEquationAt sample_x;
                      op_NeedsLocalOptimization]
            (fresh_machine true)))
  = 0%nat.
Proof.
  exact (proj1 (constructed_object_is_fresh
                  (OP := sample_Op) (SB := sample_simplification)
                  (EB := shaped_evaluation) (SG := sample_strings)
                  true
                  [op_GetComplexity; op_EvaluateEquationAt sample_x;
                   op_NeedsLocalOptimization]
                  eq_refl)).
Defined.

Lemma store_through_reference_witness :
  command_array_
    (this (sample_exec op_GetComplexity
             (sample_exec (op_store_command_array sample_stack) sample_sum)))
  = sample_stack /\
  simplified_command_array_
    (this (sample_exec op_GetComplexity
             (sample_exec (op_store_command_array sample_stack) sample_sum)))
  = [(1, 0, 0); (0, 0, 0); (2, 0, 1)].
Proof.
  destruct (store_through_reference_is_not_noticed
              (OP := sample_Op) (SB := sample_simplification)
              (EB := shaped_evaluation) (SG := sample_strings)
              sample_stack op_GetComplexity sample_sum eq_refl eq_refl)
    as (H1 & _ & H2 & _).
  exact (conj H1 H2).
Defined.

Lemma Distance_zero_witness :
  fst (Distance sample_left (mkMachine sample_left [])) = Returned 0.
Proof.
  exact (proj2 (Distance_zero_iff_identical
                  (mkMachine sample_left []) sample_left
                  eq_refl one_row_fits)
               eq_refl).
Defined.

Lemma Distance_triangle_witness :
  exists dab dbc dac : Z,
    fst (Distance sample_right (mkMachine sample_left [])) = Returned dab /\
    fst (Distance sample_left (mkMachine sample_right [])) = Returned dbc /\
    fst (Distance sample_left (mkMachine sample_left [])) = Returned dac /\
    dac <= dab + dbc /\
    0 <= dac <= 3 * Z.of_nat 1.
Proof.
  exact (Distance_triangle sample_left sample_right sample_left []
           eq_refl eq_refl one_row_fits).
Defined.

(** * Worked instances of the lazy update protocol *)

(** On a stale object whose simplifier returns, four calls of which three
    are derived accessors run the pipeline once, and the first of them
    leaves the renumbered program. *)
Lemma update_runs_once_witness :
  pipeline_runs
    (log (sample_run
            [op_GetFitness; op_GetComplexity; op_EvaluateEquationAt sample_x;
             op_NeedsLocalOptimization]
            (sample_stale false)))
  = 1%nat /\
  simplified_command_array_
    (this (sample_run [op_GetFitness; op_GetComplexity] (sample_stale false)))
  = [(1, 0, 0); (0, 0, 0); (1, 1, 1); (2, 0, 1)].
Proof.
  destruct (update_runs_once_per_staleness
              (OP := sample_Op) (SB := sample_simplification)
              (EB := shaped_evaluation) (SG := sample_strings)
              [op_GetFitness; op_GetComplexity;
               op_EvaluateEquationAt sample_x; op_NeedsLocalOptimization]
              (sample_stale false) sample_stack
              eq_refl eq_refl sample_stack_fits eq_refl)
    as (H1 & _ & H3 & _).
  destruct (H3 [op_GetFitness] op_GetComplexity
               [op_EvaluateEquationAt sample_x; op_NeedsLocalOptimization]
               eq_refl eq_refl eq_refl)
    as (_ & _ & H & _).
  exact (conj H1 H).
Defined.

(** A stale object whose external simplifier throws: three derived
    accessors in one staleness period run the pipeline three times, and the
    object is still stale with nothing recomputed. *)
Lemma update_reruns_when_simplifier_throws_counterexample :
  modified_ (this (sample_stale true)) = true /\
  forallb (fun o => negb (is_raw_write o))
    [op_GetComplexity; op_NeedsLocalOptimization;
     op_GetNumberLocalOptimizationParams] = true /\
  pipeline_runs
    (log (sample_run
            [op_GetComplexity; op_NeedsLocalOptimization;
             op_GetNumberLocalOptimizationParams]
            (sample_stale true)))
  = 3%nat /\
  modified_
    (this (sample_run
             [op_GetComplexity; op_NeedsLocalOptimization;
              op_GetNumberLocalOptimizationParams]
             (sample_stale true)))
  = true /\
  simplified_command_array_
    (this (sample_run
             [op_GetComplexity; op_NeedsLocalOptimization;
              op_GetNumberLocalOptimizationParams]
             (sample_stale true)))
  = [].
Proof. repeat split; reflexivity. Qed.
